(** * ABI structures of the Aztec 3 circuits: hashing, conversion, serialization

    A shallow embedding of
    - [circuits/abis/function_signature.hpp],
    - [circuits/abis/public_circuit_public_inputs.hpp],
    - [barretenberg/crypto/pedersen_commitment/rust_bind.hpp],
    followed by the properties the specification states about them.

    Layout: definitions first (bytes and memory, the serializer interface,
    the two representations, the two structures, the exported declarations,
    a concrete instantiation), then lemmas and theorems. *)

From Stdlib Require Import String Strings.Byte.
From Stdlib Require Import ZArith List Lia Bool.
From Stdlib Require Import DecimalString DecimalN.
From ExtLib Require Import Structures.Monad.
From ExtLib Require Import Data.Monads.IdentityMonad Data.Monads.StateMonad.
Import ListNotations.
Import MonadNotation.

Set Implicit Arguments.
Local Open Scope Z_scope.
Local Open Scope monad_scope.

(* ===================================================================== *)
(** * Part I: definitions *)
(* ===================================================================== *)

(** ** Bytes and fixed-width big-endian numbers *)

Definition byte_of_Z (z : Z) : byte :=
  match Byte.of_N (Z.to_N (z mod 256)) with
  | Some b => b
  | None => x00
  end.

Definition Z_of_byte (b : byte) : Z := Z.of_N (Byte.to_N b).

(** [be_encode n v]: the [n] low-order bytes of [v], most significant first. *)
Fixpoint be_encode (n : nat) (v : Z) : list byte :=
  match n with
  | O => []
  | S k => byte_of_Z (v / 256 ^ Z.of_nat k) :: be_encode k v
  end.

Fixpoint be_decode (bs : list byte) (acc : Z) : Z :=
  match bs with
  | [] => acc
  | b :: rest => be_decode rest (acc * 256 + Z_of_byte b)
  end.

(** ** Memory and cursors

    [read] receives [uint8_t const*& it]: a bare pointer into memory, with
    no end pointer and no length.  Memory maps an address to the byte
    stored there, or to [None] where the address lies in no object; a
    cursor is an address; what a caller calls "the buffer" is the object it
    filled, and the addresses past its end are not readable. *)

Definition Memory := Z -> option byte.

(** The [n] bytes at [it], when all of them are readable. *)
Fixpoint load (mem : Memory) (it : Z) (n : nat) : option (list byte) :=
  match n with
  | O => Some []
  | S k =>
      match mem it, load mem (it + 1) k with
      | Some b, Some bs => Some (b :: bs)
      | _, _ => None
      end
  end.

(** The bytes [buf] are stored at address [it]. *)
Definition holds (mem : Memory) (it : Z) (buf : list byte) : Prop :=
  load mem it (length buf) = Some buf.

(** A [std::vector<uint8_t>] placed at address [base], and no other
    object: only the addresses of its elements are readable. *)
Definition memory_of (base : Z) (buf : list byte) : Memory :=
  fun a => if (a <? base) then None else nth_error buf (Z.to_nat (a - base)).

(** ** Outcome of a read

    [read] returns [void] and advances the cursor it was given by reference;
    a reader further down may still give up (throw), which propagates
    unchanged through the structure-level readers below.  A reader that
    dereferences an address lying in no object has undefined behaviour: the
    language gives the call no result, and the caller is told nothing. *)

Inductive outcome (T : Type) : Type :=
| Done (x : T) (it : Z)
| DecodingError
| Undefined.
Arguments DecodingError {T}.
Arguments Undefined {T}.

Definition and_then {A B : Type} (r : outcome A) (k : A -> Z -> outcome B)
  : outcome B :=
  match r with
  | Done x it => k x it
  | DecodingError => DecodingError
  | Undefined => Undefined
  end.

(** ** The serializer interface ([serialize::read] / [serialize::write])

    [write buf x] is the vector after [write(buf, x)]; [read mem it dst] is
    [read(it, dst)] run against memory [mem], returning the new value of
    [dst] and the advanced cursor. *)

Module serialize.

Class Serialize (T : Type) : Type := {
  write : list byte -> T -> list byte;
  read : Memory -> Z -> T -> outcome T
}.

(** What a well-behaved serializer of a fixed-size type guarantees, on the
    values [valid] of the type (the destination of a [read] is an object of
    the type, too). *)
Class Laws (T : Type) (ser : Serialize T)
      (valid : T -> Prop) (size : nat) : Prop := {
  write_appends : forall buf x, write buf x = buf ++ write [] x;
  write_size : forall x, valid x -> length (write [] x) = size;
  read_write : forall mem it dst x,
      valid dst -> valid x -> holds mem it (write [] x) ->
      read mem it dst = Done x (it + Z.of_nat size)
}.

(** Modelled from the spec: [serialize::write]/[serialize::read] for
    [uint32_t] live in barretenberg's serialization header, outside this
    development.  The spec gives a 4-byte unsigned integer; network byte
    order is taken, as for field elements.  The reader is handed the cursor
    alone, as every [read(it, member)] call of the two headers shows: it
    dereferences the four addresses at the cursor and cannot tell whether
    they lie in the caller's buffer. *)
Definition uint32_t : Serialize Z := {|
  write := fun buf v => buf ++ be_encode 4 v;
  read := fun mem it _ =>
            match load mem it 4 with
            | Some bs => Done (be_decode bs 0) (it + 4)
            | None => Undefined
            end
|}.

(** The values of [uint32_t]. *)
Definition valid_uint32 (v : Z) : Prop := 0 <= v < 2 ^ 32.

(** Modelled from the spec: a boolean is one byte; any non-zero byte reads
    as [true]. *)
Definition bool_t : Serialize bool := {|
  write := fun buf (b : bool) => buf ++ [if b then x01 else x00];
  read := fun mem it _ =>
            match mem it with
            | Some b => Done (negb (Byte.eqb b x00)) (it + 1)
            | None => Undefined
            end
|}.

(** Order of the scalar field of BN254. *)
Definition fr_modulus : Z :=
  21888242871839275222246405745257275088548364400416034343698204186575808495617.

(** Modelled from the spec: a field element (and an address, which is one
    field element) is 32 bytes, big-endian. *)
Definition fr_t : Serialize Z := {|
  write := fun buf v => buf ++ be_encode 32 v;
  read := fun mem it _ =>
            match load mem it 32 with
            | Some bs => Done (be_decode bs 0 mod fr_modulus) (it + 32)
            | None => Undefined
            end
|}.

Definition valid_bool (b : bool) : Prop := True.

(** The canonical field elements. *)
Definition valid_fr (v : Z) : Prop := 0 <= v < fr_modulus.

(** A [std::array<A, n>] whose elements are all valid. *)
Definition valid_array {A : Type} (n : nat) (v : A -> Prop) (arr : list A)
  : Prop :=
  length arr = n /\ Forall v arr.

(** Modelled from the spec: a [std::array<T, N>] is its [N] elements in
    index order, inlined, with no length prefix.  The reader fills the
    elements of the destination array one after the other. *)
Fixpoint write_array {T : Type} {ser : Serialize T}
         (buf : list byte) (arr : list T) : list byte :=
  match arr with
  | [] => buf
  | e :: rest => write_array (write buf e) rest
  end.

Fixpoint read_array {T : Type} {ser : Serialize T}
         (mem : Memory) (it : Z) (dst : list T) : outcome (list T) :=
  match dst with
  | [] => Done [] it
  | d :: ds =>
      and_then (read mem it d) (fun x it1 =>
      and_then (read_array mem it1 ds) (fun xs it2 =>
      Done (x :: xs) it2))
  end.

#[global] Instance array {T : Type} {ser : Serialize T}
  : Serialize (list T) := {|
  write := write_array;
  read := read_array
|}.

End serialize.

(** ** Compile-time outcomes

    Several operations of the headers are rejected when the template is
    instantiated rather than when it runs ([static_assert], a member that
    does not exist, a braced list with too many clauses). *)

Inductive diagnostic : Type :=
| static_assertion_failed
| no_member_named (member : string)
| excess_initializers (given expected : nat).

Inductive instantiation (A : Type) : Type :=
| well_formed (a : A)
| ill_formed (d : diagnostic).
Arguments ill_formed {A} d.

(** ** Domain-separation registry *)

(** Modelled from the spec: [GeneratorIndex] is declared in barretenberg's
    generator data header, outside this development: one small integer tag
    per structure kind.  The two enumerators the headers name are kept, by
    name. *)
Inductive GeneratorIndex : Type :=
| FUNCTION_SIGNATURE
| PRIVATE_CIRCUIT_PUBLIC_INPUTS.

(** Modelled from the spec: the registry gives one index to each distinct
    structure kind, and each enumerator is named after its kind.  The
    header of the private-circuit public inputs is outside this
    development. *)
Inductive StructureKind : Type :=
| FunctionSignature_kind
| PrivateCircuitPublicInputs_kind
| PublicCircuitPublicInputs_kind.

(** Modelled from the spec: the kind an enumerator is named after. *)
Definition kind_of_index (g : GeneratorIndex) : StructureKind :=
  match g with
  | FUNCTION_SIGNATURE => FunctionSignature_kind
  | PRIVATE_CIRCUIT_PUBLIC_INPUTS => PrivateCircuitPublicInputs_kind
  end.

(** ** The representation abstraction ([NCT]) *)

(** Modelled from the spec: [native_types.hpp] and [circuit_types.hpp] are
    outside this development.  A representation supplies the scalar types
    and [compress].  The native [compress] is a plain function; the circuit
    one works on wires of a composer that it extends, so [compress] lives in
    a monad [effect]. *)

Class NCT : Type := {
  effect : Type -> Type;
  effect_monad : Monad effect;
  uint32 : Type;
  boolean : Type;
  fr : Type;
  address : Type;
  fr_of_uint32 : uint32 -> fr;
  fr_of_boolean : boolean -> fr;
  compress : list fr -> GeneratorIndex -> effect fr
}.
#[global] Existing Instance effect_monad.

(** Modelled from the spec: [map(arr, f)] of [common/map.hpp], outside this
    development: [f] on every element, order preserved. *)
Fixpoint map_array {m : Type -> Type} {Mm : Monad m} {A B : Type}
         (f : A -> m B) (arr : list A) : m (list B) :=
  match arr with
  | [] => ret []
  | a :: rest =>
      b <- f a ;;
      bs <- map_array f rest ;;
      ret (b :: bs)
  end.

(** *** The constraint system *)

(** Modelled from the spec: the composer is outside this development.  It
    is kept as far as witnesses and public inputs go: converting allocates
    one witness per scalar, [set_public] marks a wire as public input. *)

Record Composer : Type := {
  variables : list Z;
  public_inputs : list nat
}.

Definition empty_composer : Composer :=
  {| variables := []; public_inputs := [] |}.

Definition add_variable (v : Z) : state Composer nat :=
  mkState (fun c =>
    (length (variables c),
     {| variables := variables c ++ [v];
        public_inputs := public_inputs c |})).

Definition set_public_input (i : nat) : state Composer unit :=
  mkState (fun c =>
    (tt, {| variables := variables c;
            public_inputs := public_inputs c ++ [i] |})).

Definition get_variable (c : Composer) (i : nat) : option Z :=
  nth_error (variables c) i.

(** Modelled from the spec: a circuit value is a wire bound to a witness of
    the composer, kept here as the index of that witness. *)
Record field_t : Type := { witness_index : nat }.
Record bool_t : Type := { bool_witness_index : nat }.
Record uint_t : Type := { uint_witness_index : nat }.

(** Modelled from the spec: [fr(x)] for a circuit [uint32] or [boolean] is
    the same wire, as a field. *)
Definition field_of_uint (u : uint_t) : field_t :=
  {| witness_index := uint_witness_index u |}.
Definition field_of_bool (b : bool_t) : field_t :=
  {| witness_index := bool_witness_index b |}.

(** Modelled from the spec: [to_ct(composer, e)] of [convert.hpp], outside
    this development, lifts the scalar [e] to a wire bound to its value (it
    witnesses [e]); an array is lifted element by element, in order. *)
Definition to_ct_fr (e : Z) : state Composer field_t :=
  i <- add_variable e ;; ret {| witness_index := i |}.
Definition to_ct_bool (e : bool) : state Composer bool_t :=
  i <- add_variable (if e then 1 else 0) ;; ret {| bool_witness_index := i |}.
Definition to_ct_uint32 (e : Z) : state Composer uint_t :=
  i <- add_variable e ;; ret {| uint_witness_index := i |}.
Definition to_ct_array (e : list Z) : state Composer (list field_t) :=
  map_array to_ct_fr e.

(** *** The compression primitive, external to the ABI layer

    The native and the in-circuit Pedersen compression are parameters. *)

Class CompressionPrimitive : Type := {
  compress_native : list Z -> GeneratorIndex -> Z;
  stdlib_pedersen_compress :
    list field_t -> GeneratorIndex -> state Composer field_t
}.

(** Modelled from the spec: the canonical hash of a structure of the kind
    that owns index [g] is its flattened sequence, compressed under [g]. *)
Definition canonical_hash {P : CompressionPrimitive} (g : GeneratorIndex)
           (flattened : list Z) : Z :=
  compress_native flattened g.

(** The wire [w] carries the value [v] in composer [c]. *)
Definition denotes (c : Composer) (w : field_t) (v : Z) : Prop :=
  get_variable c (witness_index w) = Some v.

(** [c'] is [c] with further witnesses (and public inputs) added. *)
Definition extends (c c' : Composer) : Prop :=
  exists more, variables c' = variables c ++ more.

(** The in-circuit compression computes, on the values of its input wires,
    what the native one computes, and only adds to the composer. *)
Class CompressionAgrees (P : CompressionPrimitive) : Prop := {
  compress_agrees : forall c ws vs g,
      Forall2 (denotes c) ws vs ->
      extends c (snd (runState (stdlib_pedersen_compress ws g) c)) /\
      denotes (snd (runState (stdlib_pedersen_compress ws g) c))
              (fst (runState (stdlib_pedersen_compress ws g) c))
              (compress_native vs g)
}.

(** Modelled from the spec: in [NativeTypes] a scalar is a field value, a
    boolean is a boolean, an address is a scalar, and [compress] delegates
    to the compression primitive. *)
Definition NativeTypes {P : CompressionPrimitive} : NCT := {|
  effect := ident;
  effect_monad := Monad_ident;
  uint32 := Z;
  boolean := bool;
  fr := Z;
  address := Z;
  fr_of_uint32 := fun v => v;
  fr_of_boolean := fun b : bool => if b then 1 else 0;
  compress := fun inputs g => ret (compress_native inputs g)
|}.

(** Modelled from the spec: in [CircuitTypes] every scalar is a wire of
    the composer, and [compress] emits the compression inside it and
    returns the resulting wire. *)
Definition CircuitTypes {P : CompressionPrimitive} : NCT := {|
  effect := state Composer;
  effect_monad := Monad_state Composer;
  uint32 := uint_t;
  boolean := bool_t;
  fr := field_t;
  address := field_t;
  fr_of_uint32 := field_of_uint;
  fr_of_boolean := field_of_bool;
  compress := stdlib_pedersen_compress
|}.

(** The two instantiations of the templates. *)
Inductive Representation : Type := Native | Circuit.

Definition types {P : CompressionPrimitive} (r : Representation) : NCT :=
  match r with
  | Native => NativeTypes
  | Circuit => CircuitTypes
  end.

(** [std::is_same<NativeTypes, NCT>::value] *)
Definition is_same_NativeTypes (r : Representation) : bool :=
  match r with
  | Native => true
  | Circuit => false
  end.

(** ** [function_signature.hpp] *)

Module function_signature.

Record FunctionSignature (T : NCT) : Type := {
  vk_index : @uint32 T;
  is_private : @boolean T;
  is_constructor : @boolean T
}.

(** Assignment to one member, the others untouched. *)
Definition set_vk_index {T : NCT} (v : uint32) (fs : FunctionSignature T) :=
  {| vk_index := v;
     is_private := is_private fs;
     is_constructor := is_constructor fs |}.
Definition set_is_private {T : NCT} (v : boolean) (fs : FunctionSignature T) :=
  {| vk_index := vk_index fs;
     is_private := v;
     is_constructor := is_constructor fs |}.
Definition set_is_constructor {T : NCT} (v : boolean)
           (fs : FunctionSignature T) :=
  {| vk_index := vk_index fs;
     is_private := is_private fs;
     is_constructor := v |}.

Section Generic.
Context {T : NCT}.

(** [fr hash() const] *)
Definition hash_inputs (fs : FunctionSignature T) : list fr :=
  [ fr_of_uint32 (vk_index fs);
    fr_of_boolean (is_private fs);
    fr_of_boolean (is_constructor fs) ].

Definition hash (fs : FunctionSignature T) : effect fr :=
  let inputs := hash_inputs fs in
  compress inputs FUNCTION_SIGNATURE.

Context {ser_uint32 : serialize.Serialize (@uint32 T)}.
Context {ser_boolean : serialize.Serialize (@boolean T)}.

(** [void read(uint8_t const*& it, FunctionSignature<NCT>&)] *)
Definition read (mem : Memory) (it : Z)
           (function_signature : FunctionSignature T)
  : outcome (FunctionSignature T) :=
  and_then (serialize.read mem it (vk_index function_signature))
    (fun v it =>
       let function_signature := set_vk_index v function_signature in
  and_then (serialize.read mem it (is_private function_signature))
    (fun v it =>
       let function_signature := set_is_private v function_signature in
  and_then (serialize.read mem it (is_constructor function_signature))
    (fun v it =>
       let function_signature := set_is_constructor v function_signature in
  Done function_signature it))).

(** [void write(std::vector<uint8_t>& buf, FunctionSignature<NCT> const&)] *)
Definition write (buf : list byte)
           (function_signature : FunctionSignature T) : list byte :=
  let buf := serialize.write buf (vk_index function_signature) in
  let buf := serialize.write buf (is_private function_signature) in
  let buf := serialize.write buf (is_constructor function_signature) in
  buf.

#[global] Instance Serialize_FunctionSignature
  : serialize.Serialize (FunctionSignature T) :=
  serialize.Build_Serialize write read.

(** Validity and size of an instance, from those of its member types. *)
Definition valid_members (valid_uint32 : @uint32 T -> Prop)
           (valid_boolean : @boolean T -> Prop)
           (fs : FunctionSignature T) : Prop :=
  valid_uint32 (vk_index fs) /\
  valid_boolean (is_private fs) /\
  valid_boolean (is_constructor fs).

Definition size_members (size_uint32 size_boolean : nat) : nat :=
  (size_uint32 + size_boolean + size_boolean)%nat.
End Generic.

Section Representations.
Context {P : CompressionPrimitive}.

(** [bool operator==(FunctionSignature<NCT> const&) const = default]:
    member-wise, in declaration order. *)
Definition eqb (a b : FunctionSignature NativeTypes) : bool :=
  Z.eqb (vk_index a) (vk_index b)
  && Bool.eqb (is_private a) (is_private b)
  && Bool.eqb (is_constructor a) (is_constructor b).

(** Number of non-static data members of the aggregate. *)
Definition member_count : nat := 3.

(** Aggregate initialization from a braced list of integer literals:
    clauses initialize the members in declaration order; a member without
    a clause takes its default member initializer ([false]) or is
    value-initialized ([vk_index]); more clauses than members is
    rejected. *)
Definition aggregate_initialize (clauses : list Z)
  : instantiation (FunctionSignature NativeTypes) :=
  match clauses with
  | [] =>
      well_formed {| vk_index := 0 : @uint32 NativeTypes;
                     is_private := false : @boolean NativeTypes;
                     is_constructor := false : @boolean NativeTypes |}
  | [a] =>
      well_formed {| vk_index := a : @uint32 NativeTypes;
                     is_private := false : @boolean NativeTypes;
                     is_constructor := false : @boolean NativeTypes |}
  | [a; b] =>
      well_formed {| vk_index := a : @uint32 NativeTypes;
                     is_private := negb (b =? 0) : @boolean NativeTypes;
                     is_constructor := false : @boolean NativeTypes |}
  | [a; b; c] =>
      well_formed {| vk_index := a : @uint32 NativeTypes;
                     is_private := negb (b =? 0) : @boolean NativeTypes;
                     is_constructor := negb (c =? 0) : @boolean NativeTypes |}
  | _ => ill_formed (excess_initializers (length clauses) member_count)
  end.

(** [static FunctionSignature<NCT> empty() { return { 0, 0, 0, 0, 0 }; }] *)
Definition empty : instantiation (FunctionSignature NativeTypes) :=
  aggregate_initialize [0; 0; 0; 0; 0].

(** Body of [to_circuit_type]: the braced list witnesses the members in
    order. *)
Definition to_circuit_type_body (fs : FunctionSignature NativeTypes)
  : state Composer (FunctionSignature CircuitTypes) :=
  a <- to_ct_uint32 (vk_index fs) ;;
  b <- to_ct_bool (is_private fs) ;;
  c <- to_ct_bool (is_constructor fs) ;;
  ret {| vk_index := a : @uint32 CircuitTypes;
         is_private := b : @boolean CircuitTypes;
         is_constructor := c : @boolean CircuitTypes |}.

(** [to_circuit_type] with its
    [static_assert((std::is_same<NativeTypes, NCT>::value))]. *)
Definition to_circuit_type (r : Representation)
  : instantiation (FunctionSignature (types r) ->
                   state Composer (FunctionSignature CircuitTypes)) :=
  match r with
  | Native => well_formed to_circuit_type_body
  | Circuit => ill_formed static_assertion_failed
  end.

(** Body of [set_public]: each member, as a field, in order. *)
Definition set_public_body (fs : FunctionSignature CircuitTypes)
  : state Composer unit :=
  set_public_input (witness_index (field_of_uint (vk_index fs))) ;;
  set_public_input (witness_index (field_of_bool (is_private fs))) ;;
  set_public_input (witness_index (field_of_bool (is_constructor fs))).

(** [set_public] with its
    [static_assert(!(std::is_same<NativeTypes, NCT>::value))]. *)
Definition set_public (r : Representation)
  : instantiation (FunctionSignature (types r) -> state Composer unit) :=
  match r with
  | Native => ill_formed static_assertion_failed
  | Circuit => well_formed set_public_body
  end.

(** A native instance: [vk_index] is a [uint32_t]. *)
Definition valid (fs : FunctionSignature NativeTypes) : Prop :=
  @valid_members NativeTypes serialize.valid_uint32 serialize.valid_bool fs.

(** Bytes of a serialized native instance: 4 + 1 + 1. *)
Definition size : nat := size_members 4 1.
End Representations.

End function_signature.

(** ** Sub-structures declared in other headers

    [call_context.hpp], [state_transition.hpp] and [state_read.hpp] are
    outside this development.  A sub-structure is a type per
    representation with the two member functions the parent calls. *)

Module abi.

Class Structure {P : CompressionPrimitive} (S : NCT -> Type) : Type := {
  hash : forall T : NCT, S T -> @effect T (@fr T);
  to_circuit_type : S NativeTypes -> state Composer (S CircuitTypes)
}.
Arguments hash {P S _ T} _.

(** Conversion soundness of a sub-structure: converting only adds to the
    composer, and the in-circuit hash of the converted structure, taken in
    any later composer, carries the native hash. *)
Class Sound {P : CompressionPrimitive} (S : NCT -> Type)
      (str : Structure S) : Prop := {
  conversion_extends : forall (x : S NativeTypes) c,
      extends c (snd (runState (to_circuit_type x) c));
  hash_agrees : forall (x : S NativeTypes) c c',
      extends (snd (runState (to_circuit_type x) c)) c' ->
      let x' := fst (runState (to_circuit_type x) c) in
      extends c' (snd (runState (hash (T := CircuitTypes) x') c')) /\
      denotes (snd (runState (hash (T := CircuitTypes) x') c'))
              (fst (runState (hash (T := CircuitTypes) x') c'))
              (unIdent (hash (T := NativeTypes) x))
}.

(** [x'] was obtained by converting [x], in a composer that [c] extends. *)
Definition converted {P : CompressionPrimitive} {S : NCT -> Type}
           {str : Structure S} (c : Composer)
           (x : S NativeTypes) (x' : S CircuitTypes) : Prop :=
  exists c0,
    x' = fst (runState (to_circuit_type x) c0) /\
    extends (snd (runState (to_circuit_type x) c0)) c.

End abi.

(** ** [constants.hpp]: the array lengths, protocol constants *)

Class Constants : Type := {
  CUSTOM_INPUTS_LENGTH : nat;
  CUSTOM_OUTPUTS_LENGTH : nat;
  EMITTED_EVENTS_LENGTH : nat;
  STATE_TRANSITIONS_LENGTH : nat;
  STATE_READS_LENGTH : nat;
  PUBLIC_CALL_STACK_LENGTH : nat;
  CONTRACT_DEPLOYMENT_CALL_STACK_LENGTH : nat;
  PARTIAL_L1_CALL_STACK_LENGTH : nat
}.

(** ** [public_circuit_public_inputs.hpp] *)

Module public_circuit_public_inputs.

Section Declaration.
Variables CallContext StateTransition StateRead : NCT -> Type.

Record PublicCircuitPublicInputs (T : NCT) : Type := {
  call_context : CallContext T;
  custom_inputs : list (@fr T);
  custom_outputs : list (@fr T);
  emitted_events : list (@fr T);
  state_transitions : list (StateTransition T);
  state_reads : list (StateRead T);
  public_call_stack : list (@fr T);
  contract_deployment_call_stack : list (@fr T);
  partial_l1_call_stack : list (@fr T);
  old_private_data_tree_root : @fr T;
  prover_address : @address T
}.
End Declaration.

Section Members.
Context {CallContext StateTransition StateRead : NCT -> Type} {T : NCT}.
#[local] Abbreviation PCPI :=
  (PublicCircuitPublicInputs CallContext StateTransition StateRead T).

(** Assignment to one member, the others untouched. *)
Definition set_call_context (v : CallContext T) (p : PCPI) : PCPI :=
  {| call_context := v;
     custom_inputs := custom_inputs p;
     custom_outputs := custom_outputs p;
     emitted_events := emitted_events p;
     state_transitions := state_transitions p;
     state_reads := state_reads p;
     public_call_stack := public_call_stack p;
     contract_deployment_call_stack := contract_deployment_call_stack p;
     partial_l1_call_stack := partial_l1_call_stack p;
     old_private_data_tree_root := old_private_data_tree_root p;
     prover_address := prover_address p |}.
Definition set_custom_inputs (v : list fr) (p : PCPI) : PCPI :=
  {| call_context := call_context p;
     custom_inputs := v;
     custom_outputs := custom_outputs p;
     emitted_events := emitted_events p;
     state_transitions := state_transitions p;
     state_reads := state_reads p;
     public_call_stack := public_call_stack p;
     contract_deployment_call_stack := contract_deployment_call_stack p;
     partial_l1_call_stack := partial_l1_call_stack p;
     old_private_data_tree_root := old_private_data_tree_root p;
     prover_address := prover_address p |}.
Definition set_custom_outputs (v : list fr) (p : PCPI) : PCPI :=
  {| call_context := call_context p;
     custom_inputs := custom_inputs p;
     custom_outputs := v;
     emitted_events := emitted_events p;
     state_transitions := state_transitions p;
     state_reads := state_reads p;
     public_call_stack := public_call_stack p;
     contract_deployment_call_stack := contract_deployment_call_stack p;
     partial_l1_call_stack := partial_l1_call_stack p;
     old_private_data_tree_root := old_private_data_tree_root p;
     prover_address := prover_address p |}.
Definition set_emitted_events (v : list fr) (p : PCPI) : PCPI :=
  {| call_context := call_context p;
     custom_inputs := custom_inputs p;
     custom_outputs := custom_outputs p;
     emitted_events := v;
     state_transitions := state_transitions p;
     state_reads := state_reads p;
     public_call_stack := public_call_stack p;
     contract_deployment_call_stack := contract_deployment_call_stack p;
     partial_l1_call_stack := partial_l1_call_stack p;
     old_private_data_tree_root := old_private_data_tree_root p;
     prover_address := prover_address p |}.
Definition set_state_transitions (v : list (StateTransition T)) (p : PCPI)
  : PCPI :=
  {| call_context := call_context p;
     custom_inputs := custom_inputs p;
     custom_outputs := custom_outputs p;
     emitted_events := emitted_events p;
     state_transitions := v;
     state_reads := state_reads p;
     public_call_stack := public_call_stack p;
     contract_deployment_call_stack := contract_deployment_call_stack p;
     partial_l1_call_stack := partial_l1_call_stack p;
     old_private_data_tree_root := old_private_data_tree_root p;
     prover_address := prover_address p |}.
Definition set_state_reads (v : list (StateRead T)) (p : PCPI) : PCPI :=
  {| call_context := call_context p;
     custom_inputs := custom_inputs p;
     custom_outputs := custom_outputs p;
     emitted_events := emitted_events p;
     state_transitions := state_transitions p;
     state_reads := v;
     public_call_stack := public_call_stack p;
     contract_deployment_call_stack := contract_deployment_call_stack p;
     partial_l1_call_stack := partial_l1_call_stack p;
     old_private_data_tree_root := old_private_data_tree_root p;
     prover_address := prover_address p |}.
Definition set_public_call_stack (v : list fr) (p : PCPI) : PCPI :=
  {| call_context := call_context p;
     custom_inputs := custom_inputs p;
     custom_outputs := custom_outputs p;
     emitted_events := emitted_events p;
     state_transitions := state_transitions p;
     state_reads := state_reads p;
     public_call_stack := v;
     contract_deployment_call_stack := contract_deployment_call_stack p;
     partial_l1_call_stack := partial_l1_call_stack p;
     old_private_data_tree_root := old_private_data_tree_root p;
     prover_address := prover_address p |}.
Definition set_contract_deployment_call_stack (v : list fr) (p : PCPI)
  : PCPI :=
  {| call_context := call_context p;
     custom_inputs := custom_inputs p;
     custom_outputs := custom_outputs p;
     emitted_events := emitted_events p;
     state_transitions := state_transitions p;
     state_reads := state_reads p;
     public_call_stack := public_call_stack p;
     contract_deployment_call_stack := v;
     partial_l1_call_stack := partial_l1_call_stack p;
     old_private_data_tree_root := old_private_data_tree_root p;
     prover_address := prover_address p |}.
Definition set_partial_l1_call_stack (v : list fr) (p : PCPI) : PCPI :=
  {| call_context := call_context p;
     custom_inputs := custom_inputs p;
     custom_outputs := custom_outputs p;
     emitted_events := emitted_events p;
     state_transitions := state_transitions p;
     state_reads := state_reads p;
     public_call_stack := public_call_stack p;
     contract_deployment_call_stack := contract_deployment_call_stack p;
     partial_l1_call_stack := v;
     old_private_data_tree_root := old_private_data_tree_root p;
     prover_address := prover_address p |}.
Definition set_old_private_data_tree_root (v : fr) (p : PCPI) : PCPI :=
  {| call_context := call_context p;
     custom_inputs := custom_inputs p;
     custom_outputs := custom_outputs p;
     emitted_events := emitted_events p;
     state_transitions := state_transitions p;
     state_reads := state_reads p;
     public_call_stack := public_call_stack p;
     contract_deployment_call_stack := contract_deployment_call_stack p;
     partial_l1_call_stack := partial_l1_call_stack p;
     old_private_data_tree_root := v;
     prover_address := prover_address p |}.
Definition set_prover_address (v : address) (p : PCPI) : PCPI :=
  {| call_context := call_context p;
     custom_inputs := custom_inputs p;
     custom_outputs := custom_outputs p;
     emitted_events := emitted_events p;
     state_transitions := state_transitions p;
     state_reads := state_reads p;
     public_call_stack := public_call_stack p;
     contract_deployment_call_stack := contract_deployment_call_stack p;
     partial_l1_call_stack := partial_l1_call_stack p;
     old_private_data_tree_root := old_private_data_tree_root p;
     prover_address := v |}.
End Members.

(** The members the struct declares, in declaration order, and the members
    [read] and [write] name, in statement order. *)
Definition declared_members : list string :=
  [ "call_context"; "custom_inputs"; "custom_outputs"; "emitted_events";
    "state_transitions"; "state_reads"; "public_call_stack";
    "contract_deployment_call_stack"; "partial_l1_call_stack";
    "old_private_data_tree_root"; "prover_address" ]%string.

Definition serialized_members : list string :=
  [ "custom_inputs"; "custom_outputs"; "emitted_events"; "emitted_ouputs";
    "state_transitions"; "state_reads"; "public_call_stack";
    "contract_deployment_call_stack"; "partial_l1_call_stack";
    "old_private_data_tree_root"; "prover_address" ]%string.

(** Looking the named members up in the declaration, as instantiating
    [read] or [write] does. *)
Fixpoint resolve_members (names : list string) : instantiation unit :=
  match names with
  | [] => well_formed tt
  | n :: rest =>
      if existsb (String.eqb n) declared_members
      then resolve_members rest
      else ill_formed (no_member_named n)
  end.

(** The member functions the struct declares. *)
Definition member_functions : list string :=
  [ "to_circuit_type"; "hash"; "spread_arr_into_vec" ]%string.

(** Calling a member function by name on an instance of the struct. *)
Definition lookup_member_function (name : string) : instantiation unit :=
  if existsb (String.eqb name) member_functions
  then well_formed tt
  else ill_formed (no_member_named name).

(** [pis.set_public()]: the struct declares no such member function, in
    either representation. *)
Definition set_public (r : Representation) : instantiation unit :=
  lookup_member_function "set_public".

Section Hash.
Context {P : CompressionPrimitive}.
Context {CallContext StateTransition StateRead : NCT -> Type}.
Context {str_StateTransition : abi.Structure StateTransition}.
Context {str_StateRead : abi.Structure StateRead}.
Context {T : NCT}.
#[local] Abbreviation PCPI :=
  (PublicCircuitPublicInputs CallContext StateTransition StateRead T).

(** [vec.insert(vec.end(), &arr[0], &arr[0] + arr_size)] *)
Definition spread_arr_into_vec (arr : list (@fr T)) (vec : list (@fr T))
  : list (@fr T) :=
  vec ++ arr.

(** The vector [inputs] that [hash()] builds. *)
Definition hash_inputs (pis : PCPI) : @effect T (list (@fr T)) :=
  let inputs : list (@fr T) := [] in
  let inputs := spread_arr_into_vec (custom_inputs pis) inputs in
  let inputs := spread_arr_into_vec (custom_outputs pis) inputs in
  let inputs := spread_arr_into_vec (emitted_events pis) inputs in
  hashes <- map_array abi.hash (state_transitions pis) ;;
  let inputs := spread_arr_into_vec hashes inputs in
  hashes <- map_array abi.hash (state_reads pis) ;;
  let inputs := spread_arr_into_vec hashes inputs in
  let inputs := spread_arr_into_vec (public_call_stack pis) inputs in
  let inputs :=
    spread_arr_into_vec (contract_deployment_call_stack pis) inputs in
  let inputs := spread_arr_into_vec (partial_l1_call_stack pis) inputs in
  let inputs := inputs ++ [old_private_data_tree_root pis] in
  ret inputs.

(** [fr hash() const] *)
Definition hash (pis : PCPI) : @effect T (@fr T) :=
  inputs <- hash_inputs pis ;;
  compress inputs PRIVATE_CIRCUIT_PUBLIC_INPUTS.
End Hash.

Section Flattening.
Context {P : CompressionPrimitive}.
Context {CallContext StateTransition StateRead : NCT -> Type}.
Context {str_StateTransition : abi.Structure StateTransition}.
Context {str_StateRead : abi.Structure StateRead}.
Variable flatten_StateTransition : StateTransition NativeTypes -> list Z.
Variable flatten_StateRead : StateRead NativeTypes -> list Z.

(** The flattening as the specification words it: every declared member
    but [call_context], in declaration order; scalars as they are, arrays
    element by element, sub-structures flattened in place; [prover_address]
    last. *)
Definition spec_flatten
           (pis : PublicCircuitPublicInputs CallContext StateTransition
                                            StateRead NativeTypes)
  : list Z :=
  custom_inputs pis
  ++ custom_outputs pis
  ++ emitted_events pis
  ++ flat_map flatten_StateTransition (state_transitions pis)
  ++ flat_map flatten_StateRead (state_reads pis)
  ++ public_call_stack pis
  ++ contract_deployment_call_stack pis
  ++ partial_l1_call_stack pis
  ++ [old_private_data_tree_root pis]
  ++ [prover_address pis].

(** What [hash()] puts in [inputs] up to and including
    [old_private_data_tree_root]: scalars as they are, arrays element by
    element, and for each sub-structure the one scalar its own [hash()]
    returns. *)
Definition hashed_members
           (pis : PublicCircuitPublicInputs CallContext StateTransition
                                            StateRead NativeTypes)
  : list Z :=
  custom_inputs pis
  ++ custom_outputs pis
  ++ emitted_events pis
  ++ map (fun e => unIdent (abi.hash (T := NativeTypes) e))
         (state_transitions pis)
  ++ map (fun e => unIdent (abi.hash (T := NativeTypes) e))
         (state_reads pis)
  ++ public_call_stack pis
  ++ contract_deployment_call_stack pis
  ++ partial_l1_call_stack pis
  ++ [old_private_data_tree_root pis].
End Flattening.

Section Conversion.
Context {P : CompressionPrimitive}.
Context {CallContext StateTransition StateRead : NCT -> Type}.
Context {str_CallContext : abi.Structure CallContext}.
Context {str_StateTransition : abi.Structure StateTransition}.
Context {str_StateRead : abi.Structure StateRead}.

(** Body of [to_circuit_type]: the members are converted in the order of
    the braced list. *)
Definition to_circuit_type_body
           (pis : PublicCircuitPublicInputs CallContext StateTransition
                                            StateRead NativeTypes)
  : state Composer (PublicCircuitPublicInputs CallContext StateTransition
                                              StateRead CircuitTypes) :=
  cc <- abi.to_circuit_type (call_context pis) ;;
  ci <- to_ct_array (custom_inputs pis) ;;
  co <- to_ct_array (custom_outputs pis) ;;
  ee <- to_ct_array (emitted_events pis) ;;
  st <- map_array abi.to_circuit_type (state_transitions pis) ;;
  sr <- map_array abi.to_circuit_type (state_reads pis) ;;
  pcs <- to_ct_array (public_call_stack pis) ;;
  cdcs <- to_ct_array (contract_deployment_call_stack pis) ;;
  plcs <- to_ct_array (partial_l1_call_stack pis) ;;
  root <- to_ct_fr (old_private_data_tree_root pis) ;;
  pa <- to_ct_fr (prover_address pis) ;;
  ret {| call_context := cc;
         custom_inputs := ci : list (@fr CircuitTypes);
         custom_outputs := co : list (@fr CircuitTypes);
         emitted_events := ee : list (@fr CircuitTypes);
         state_transitions := st;
         state_reads := sr;
         public_call_stack := pcs : list (@fr CircuitTypes);
         contract_deployment_call_stack := cdcs : list (@fr CircuitTypes);
         partial_l1_call_stack := plcs : list (@fr CircuitTypes);
         old_private_data_tree_root := root : @fr CircuitTypes;
         prover_address := pa : @address CircuitTypes |}.

(** In composer [c], the circuit structure [x'] stands for the native [x]:
    its wires carry the scalars of [x], its sub-structures are conversions
    of those of [x]. *)
Definition represented (c : Composer)
           (x : PublicCircuitPublicInputs CallContext StateTransition
                                          StateRead NativeTypes)
           (x' : PublicCircuitPublicInputs CallContext StateTransition
                                           StateRead CircuitTypes) : Prop :=
  Forall2 (denotes c) (custom_inputs x') (custom_inputs x) /\
  Forall2 (denotes c) (custom_outputs x') (custom_outputs x) /\
  Forall2 (denotes c) (emitted_events x') (emitted_events x) /\
  Forall2 (abi.converted c) (state_transitions x) (state_transitions x') /\
  Forall2 (abi.converted c) (state_reads x) (state_reads x') /\
  Forall2 (denotes c) (public_call_stack x') (public_call_stack x) /\
  Forall2 (denotes c) (contract_deployment_call_stack x')
          (contract_deployment_call_stack x) /\
  Forall2 (denotes c) (partial_l1_call_stack x') (partial_l1_call_stack x) /\
  denotes c (old_private_data_tree_root x') (old_private_data_tree_root x).

(** [to_circuit_type] with its
    [static_assert((std::is_same<NativeTypes, NCT>::value))]. *)
Definition to_circuit_type (r : Representation)
  : instantiation
      (PublicCircuitPublicInputs CallContext StateTransition StateRead
                                 (types r) ->
       state Composer
             (PublicCircuitPublicInputs CallContext StateTransition StateRead
                                        CircuitTypes)) :=
  match r with
  | Native => well_formed to_circuit_type_body
  | Circuit => ill_formed static_assertion_failed
  end.
End Conversion.

Section Serialization.
Context {CallContext StateTransition StateRead : NCT -> Type} {T : NCT}.
Context {ser_fr : serialize.Serialize (@fr T)}.
Context {ser_address : serialize.Serialize (@address T)}.
Context {ser_StateTransition : serialize.Serialize (StateTransition T)}.
Context {ser_StateRead : serialize.Serialize (StateRead T)}.
(** The member [emitted_ouputs] is named by [read] and [write] and declared
    nowhere; its type, hence its encoding, is a parameter, and its value is
    carried next to the declared structure. *)
Context {EmittedOuputs : Type}.
Context {ser_emitted_ouputs : serialize.Serialize EmittedOuputs}.
#[local] Abbreviation PCPI' :=
  (PublicCircuitPublicInputs CallContext StateTransition StateRead T).

(** [void read(uint8_t const*& it, PublicCircuitPublicInputs<NCT>&)] *)
Definition read (mem : Memory) (it : Z)
           (private_circuit_public_inputs : PCPI')
           (emitted_ouputs : EmittedOuputs) : outcome PCPI' :=
  let pis := private_circuit_public_inputs in
  and_then (serialize.read mem it (custom_inputs pis))
    (fun v it => let pis := set_custom_inputs v pis in
  and_then (serialize.read mem it (custom_outputs pis))
    (fun v it => let pis := set_custom_outputs v pis in
  and_then (serialize.read mem it (emitted_events pis))
    (fun v it => let pis := set_emitted_events v pis in
  and_then (serialize.read mem it emitted_ouputs)
    (fun _ it =>
  and_then (serialize.read mem it (state_transitions pis))
    (fun v it => let pis := set_state_transitions v pis in
  and_then (serialize.read mem it (state_reads pis))
    (fun v it => let pis := set_state_reads v pis in
  and_then (serialize.read mem it (public_call_stack pis))
    (fun v it => let pis := set_public_call_stack v pis in
  and_then (serialize.read mem it (contract_deployment_call_stack pis))
    (fun v it => let pis := set_contract_deployment_call_stack v pis in
  and_then (serialize.read mem it (partial_l1_call_stack pis))
    (fun v it => let pis := set_partial_l1_call_stack v pis in
  and_then (serialize.read mem it (old_private_data_tree_root pis))
    (fun v it => let pis := set_old_private_data_tree_root v pis in
  and_then (serialize.read mem it (prover_address pis))
    (fun v it => let pis := set_prover_address v pis in
  Done pis it))))))))))).

(** [void write(std::vector<uint8_t>& buf,
                PublicCircuitPublicInputs<NCT> const&)] *)
Definition write (buf : list byte)
           (private_circuit_public_inputs : PCPI')
           (emitted_ouputs : EmittedOuputs) : list byte :=
  let pis := private_circuit_public_inputs in
  let buf := serialize.write buf (custom_inputs pis) in
  let buf := serialize.write buf (custom_outputs pis) in
  let buf := serialize.write buf (emitted_events pis) in
  let buf := serialize.write buf emitted_ouputs in
  let buf := serialize.write buf (state_transitions pis) in
  let buf := serialize.write buf (state_reads pis) in
  let buf := serialize.write buf (public_call_stack pis) in
  let buf := serialize.write buf (contract_deployment_call_stack pis) in
  let buf := serialize.write buf (partial_l1_call_stack pis) in
  let buf := serialize.write buf (old_private_data_tree_root pis) in
  let buf := serialize.write buf (prover_address pis) in
  buf.
End Serialization.

Section Validity.
Context {K : Constants}.
Context {CallContext StateTransition StateRead : NCT -> Type} {T : NCT}.
Variable valid_fr : @fr T -> Prop.
Variable valid_address : @address T -> Prop.
Variable valid_StateTransition : StateTransition T -> Prop.
Variable valid_StateRead : StateRead T -> Prop.

(** Every array has its declared length; every scalar is valid. *)
Definition valid
           (pis : PublicCircuitPublicInputs CallContext StateTransition
                                            StateRead T) : Prop :=
  serialize.valid_array CUSTOM_INPUTS_LENGTH valid_fr (custom_inputs pis) /\
  serialize.valid_array CUSTOM_OUTPUTS_LENGTH valid_fr (custom_outputs pis) /\
  serialize.valid_array EMITTED_EVENTS_LENGTH valid_fr (emitted_events pis) /\
  serialize.valid_array STATE_TRANSITIONS_LENGTH valid_StateTransition
              (state_transitions pis) /\
  serialize.valid_array STATE_READS_LENGTH valid_StateRead (state_reads pis) /\
  serialize.valid_array PUBLIC_CALL_STACK_LENGTH valid_fr (public_call_stack pis) /\
  serialize.valid_array CONTRACT_DEPLOYMENT_CALL_STACK_LENGTH valid_fr
              (contract_deployment_call_stack pis) /\
  serialize.valid_array PARTIAL_L1_CALL_STACK_LENGTH valid_fr
              (partial_l1_call_stack pis) /\
  valid_fr (old_private_data_tree_root pis) /\
  valid_address (prover_address pis).

(** Bytes [write] appends, given the size of each member type. *)
Definition size (size_fr size_address size_StateTransition size_StateRead
                 size_emitted_ouputs : nat) : nat :=
  (CUSTOM_INPUTS_LENGTH * size_fr
   + CUSTOM_OUTPUTS_LENGTH * size_fr
   + EMITTED_EVENTS_LENGTH * size_fr
   + size_emitted_ouputs
   + STATE_TRANSITIONS_LENGTH * size_StateTransition
   + STATE_READS_LENGTH * size_StateRead
   + PUBLIC_CALL_STACK_LENGTH * size_fr
   + CONTRACT_DEPLOYMENT_CALL_STACK_LENGTH * size_fr
   + PARTIAL_L1_CALL_STACK_LENGTH * size_fr
   + size_fr
   + size_address)%nat.
End Validity.

End public_circuit_public_inputs.

(** ** [rust_bind.hpp]: the exported declarations *)

Module rust_bind.

Inductive scalar : Type := char | uint8_t | uint32_t.



(** Parameter and return types, as the header spells them. *)
Inductive ctype : Type :=
| pointer_to_const (s : scalar)
| fr_in_buf
| fr_vec_in_buf
| fr_out_buf.

Record declaration : Type := {
  name : string;
  parameters : list (ctype * string);
  returns : ctype
}.

Definition exports : list declaration :=
  [ {| name := "pedersen___init";
       parameters := [];
       returns := pointer_to_const char |};
    {| name := "pedersen___compress_fields";
       parameters := [(fr_in_buf, "left"); (fr_in_buf, "right");
                      (fr_out_buf, "result")];
       returns := pointer_to_const char |};
    {| name := "pedersen___plookup_compress_fields";
       parameters := [(fr_in_buf, "left"); (fr_in_buf, "right");
                      (fr_out_buf, "result")];
       returns := pointer_to_const char |};
    {| name := "pedersen___compress";
       parameters := [(fr_vec_in_buf, "inputs_buffer");
                      (fr_out_buf, "output")];
       returns := pointer_to_const char |};
    {| name := "pedersen___plookup_compress";
       parameters := [(fr_vec_in_buf, "inputs_buffer");
                      (fr_out_buf, "output")];
       returns := pointer_to_const char |};
    {| name := "pedersen___compress_with_hash_index";
       parameters := [(fr_vec_in_buf, "inputs_buffer");
                      (pointer_to_const uint32_t, "hash_index");
                      (fr_out_buf, "output")];
       returns := pointer_to_const char |};
    {| name := "pedersen___commit";
       parameters := [(fr_vec_in_buf, "inputs_buffer");
                      (fr_out_buf, "output")];
       returns := pointer_to_const char |};
    {| name := "pedersen___plookup_commit";
       parameters := [(fr_vec_in_buf, "inputs_buffer");
                      (fr_out_buf, "output")];
       returns := pointer_to_const char |};
    {| name := "pedersen___plookup_commit_with_hash_index";
       parameters := [(fr_vec_in_buf, "inputs_buffer");
                      (pointer_to_const uint32_t, "hash_index");
                      (fr_out_buf, "output")];
       returns := pointer_to_const char |};
    {| name := "pedersen___buffer_to_field";
       parameters := [(pointer_to_const uint8_t, "data");
                      (fr_out_buf, "r")];
       returns := pointer_to_const char |} ]%string.












End rust_bind.

(** ** The native instantiation of the serializers *)

Module native.
Import function_signature.

Section Native.
Context {P : CompressionPrimitive}.

Definition ser_uint32 : serialize.Serialize (@uint32 NativeTypes) :=
  serialize.uint32_t.
Definition ser_boolean : serialize.Serialize (@boolean NativeTypes) :=
  serialize.bool_t.
Definition ser_fr : serialize.Serialize (@fr NativeTypes) :=
  serialize.fr_t.
Definition ser_address : serialize.Serialize (@address NativeTypes) :=
  serialize.fr_t.
Definition ser_FunctionSignature
  : serialize.Serialize (FunctionSignature NativeTypes) :=
  @Serialize_FunctionSignature NativeTypes ser_uint32 ser_boolean.

Definition fs (vk : Z) (p c : bool) : FunctionSignature NativeTypes :=
  {| vk_index := vk : @uint32 NativeTypes;
     is_private := p : @boolean NativeTypes;
     is_constructor := c : @boolean NativeTypes |}.

(** [FunctionSignature] as an ABI structure: its two member functions. *)
Definition FunctionSignature_Structure : abi.Structure FunctionSignature := {|
  abi.hash := fun T => @function_signature.hash T;
  abi.to_circuit_type := to_circuit_type_body
|}.
End Native.

End native.

(** ** A concrete instantiation, to run the definitions on data

    The compression primitive, the protocol constants and the three
    sub-structure headers are parameters of everything above.  The
    instantiation below fixes them: a toy compression, small array lengths,
    and [FunctionSignature] (the one ABI structure at hand) in the place of
    each sub-structure. *)

Module sample.

(** In-circuit compression as witness generation sees it: the native
    function on the values of the input wires, witnessed. *)
Definition witnessed_compress (f : list Z -> GeneratorIndex -> Z)
           (ws : list field_t) (g : GeneratorIndex)
  : state Composer field_t :=
  mkState (fun c =>
    let vs := map (fun w => nth (witness_index w) (variables c) 0) ws in
    runState (to_ct_fr (f vs g)) c).

Definition index_of (g : GeneratorIndex) : Z :=
  match g with
  | FUNCTION_SIGNATURE => 1
  | PRIVATE_CIRCUIT_PUBLIC_INPUTS => 2
  end.

Definition toy_compress (inputs : list Z) (g : GeneratorIndex) : Z :=
  fold_left (fun acc x => (acc * 31 + x) mod serialize.fr_modulus)
            inputs (index_of g).

Definition primitive : CompressionPrimitive := {|
  compress_native := toy_compress;
  stdlib_pedersen_compress := witnessed_compress toy_compress
|}.

#[local] Existing Instance primitive.

Definition constants : Constants := {|
  CUSTOM_INPUTS_LENGTH := 2;
  CUSTOM_OUTPUTS_LENGTH := 2;
  EMITTED_EVENTS_LENGTH := 1;
  STATE_TRANSITIONS_LENGTH := 2;
  STATE_READS_LENGTH := 1;
  PUBLIC_CALL_STACK_LENGTH := 1;
  CONTRACT_DEPLOYMENT_CALL_STACK_LENGTH := 1;
  PARTIAL_L1_CALL_STACK_LENGTH := 1
|}.

Import function_signature.
Import native.

Import public_circuit_public_inputs.

#[local] Existing Instance FunctionSignature_Structure.

Definition PCPI : Type :=
  PublicCircuitPublicInputs FunctionSignature FunctionSignature
                            FunctionSignature NativeTypes.

(** A populated structure. *)
Definition pis0 : PCPI :=
  {| call_context := fs 7 true false;
     custom_inputs := [11; 12] : list (@fr NativeTypes);
     custom_outputs := [21; 22] : list (@fr NativeTypes);
     emitted_events := [31] : list (@fr NativeTypes);
     state_transitions := [fs 1 true false; fs 2 false true];
     state_reads := [fs 3 false false];
     public_call_stack := [41] : list (@fr NativeTypes);
     contract_deployment_call_stack := [51] : list (@fr NativeTypes);
     partial_l1_call_stack := [61] : list (@fr NativeTypes);
     old_private_data_tree_root := 71 : @fr NativeTypes;
     prover_address := 81 : @address NativeTypes |}.

(** A zero-valued structure, as a destination for [read]. *)
Definition zero : PCPI :=
  {| call_context := fs 0 false false;
     custom_inputs := [0; 0] : list (@fr NativeTypes);
     custom_outputs := [0; 0] : list (@fr NativeTypes);
     emitted_events := [0] : list (@fr NativeTypes);
     state_transitions := [fs 0 false false; fs 0 false false];
     state_reads := [fs 0 false false];
     public_call_stack := [0] : list (@fr NativeTypes);
     contract_deployment_call_stack := [0] : list (@fr NativeTypes);
     partial_l1_call_stack := [0] : list (@fr NativeTypes);
     old_private_data_tree_root := 0 : @fr NativeTypes;
     prover_address := 0 : @address NativeTypes |}.

(** The undeclared member [emitted_ouputs], taken to be one field element. *)
Definition emitted_ouputs0 : Z := 35.

Definition read_pis (mem : Memory) (it : Z) (dst : PCPI) (eo : Z)
  : outcome PCPI :=
  @public_circuit_public_inputs.read _ _ _ NativeTypes
     ser_fr ser_address ser_FunctionSignature ser_FunctionSignature
     Z serialize.fr_t mem it dst eo.

Definition write_pis (buf : list byte) (pis : PCPI) (eo : Z) : list byte :=
  @public_circuit_public_inputs.write _ _ _ NativeTypes
     ser_fr ser_address ser_FunctionSignature ser_FunctionSignature
     Z serialize.fr_t buf pis eo.

(** [hash()] and its [inputs] on the sample instantiation. *)
Definition hash_inputs_pis (pis : PCPI) : list Z :=
  unIdent (public_circuit_public_inputs.hash_inputs (T := NativeTypes) pis).

Definition hash_pis (pis : PCPI) : Z :=
  unIdent (public_circuit_public_inputs.hash (T := NativeTypes) pis).

(** The flattening as the specification words it, a [FunctionSignature]
    being flattened into its three members. *)
Definition spec_flatten_pis (pis : PCPI) : list Z :=
  public_circuit_public_inputs.spec_flatten
    (function_signature.hash_inputs (T := NativeTypes))
    (function_signature.hash_inputs (T := NativeTypes)) pis.

End sample.

(** ** [operator<<] of [function_signature.hpp]

    The stream is the text it has received so far.  What [<<] prints for a
    member depends on the member's type, so printing is an interface of the
    representation's types; the native instances are those of a stream with
    its default flags. *)

Module output.

Class Printable (T : Type) : Type := {
  out : string -> T -> string
}.

(** ["\n"] *)
Definition newline : string := String (Ascii.ascii_of_nat 10) EmptyString.

(** [os << "..."] *)
Definition out_literal (os : string) (text : string) : string :=
  String.append os text.

(** [os << v] for a [uint32_t]: decimal digits, no padding. *)
Definition uint32_t : Printable Z := {|
  out := fun os v =>
           String.append os
             (NilEmpty.string_of_uint (N.to_uint (Z.to_N v)))
|}.

(** [os << b] for a [bool], without [boolalpha]: [1] or [0]. *)
Definition bool_t : Printable bool := {|
  out := fun os (b : bool) => String.append os (if b then "1" else "0")
|}.

Section Generic.
Context {T : NCT}.
Context {print_uint32 : Printable (@uint32 T)}.
Context {print_boolean : Printable (@boolean T)}.

(** [std::ostream& operator<<(std::ostream& os,
                              FunctionSignature<NCT> const&)] *)
Definition operator_out (os : string)
           (function_signature : function_signature.FunctionSignature T)
  : string :=
  let os := out_literal os "vk_index: " in
  let os := out os (function_signature.vk_index function_signature) in
  let os := out_literal os newline in
  let os := out_literal os "is_private: " in
  let os := out os (function_signature.is_private function_signature) in
  let os := out_literal os newline in
  let os := out_literal os "is_constructor: " in
  let os := out os (function_signature.is_constructor function_signature) in
  let os := out_literal os newline in
  os.
End Generic.

(** The native instantiation. *)
Definition native_operator_out {P : CompressionPrimitive} (os : string)
           (x : function_signature.FunctionSignature NativeTypes) : string :=
  @operator_out NativeTypes uint32_t bool_t os x.

(** The number of newlines in a text. *)
Fixpoint count_newlines (s : string) : nat :=
  match s with
  | EmptyString => 0
  | String a rest =>
      if Ascii.eqb a (Ascii.ascii_of_nat 10)
      then S (count_newlines rest)
      else count_newlines rest
  end.

End output.

(* ===================================================================== *)
(** * Part II: lemmas and theorems *)
(* ===================================================================== *)

Unset Implicit Arguments.

(** ** Bytes and big-endian numbers *)

Lemma Z_of_byte_range (b : byte) : 0 <= Z_of_byte b < 256.
Proof.
  unfold Z_of_byte. pose proof (Byte.to_N_bounded b). lia.
Qed.

Lemma Z_of_byte_of_Z (z : Z) : Z_of_byte (byte_of_Z z) = z mod 256.
Proof.
  unfold byte_of_Z, Z_of_byte.
  assert (Hr : 0 <= z mod 256 < 256) by (apply Z.mod_pos_bound; lia).
  destruct (Byte.of_N (Z.to_N (z mod 256))) as [b|] eqn:E.
  - apply Byte.to_of_N in E. rewrite E. lia.
  - apply Byte.of_N_None_iff in E. lia.
Qed.

Lemma length_be_encode (n : nat) (v : Z) : length (be_encode n v) = n.
Proof. induction n as [|k IH]; simpl; [reflexivity | now rewrite IH]. Qed.

Lemma be_decode_encode (n : nat) (v acc : Z) :
  be_decode (be_encode n v) acc = acc * 256 ^ Z.of_nat n + v mod 256 ^ Z.of_nat n.
Proof.
  revert acc. induction n as [|k IH]; intros acc.
  - simpl. rewrite Z.mod_1_r. lia.
  - cbn [be_encode be_decode]. rewrite IH, Z_of_byte_of_Z.
    rewrite Nat2Z.inj_succ, Z.pow_succ_r by lia.
    assert (Hp : 0 < 256 ^ Z.of_nat k) by (apply Z.pow_pos_nonneg; lia).
    rewrite (Z.mul_comm 256 (256 ^ Z.of_nat k)).
    rewrite (Z.rem_mul_r v (256 ^ Z.of_nat k) 256) by lia.
    ring.
Qed.

Lemma be_roundtrip (n : nat) (v : Z) :
  0 <= v < 256 ^ Z.of_nat n -> be_decode (be_encode n v) 0 = v.
Proof.
  intros Hv. rewrite be_decode_encode, Z.mod_small by exact Hv. lia.
Qed.

(** ** Memory *)

Lemma load_app (mem : Memory) (it : Z) (n m : nat) :
  load mem it (n + m)
  = match load mem it n, load mem (it + Z.of_nat n) m with
    | Some a, Some b => Some (a ++ b)
    | _, _ => None
    end.
Proof.
  revert it. induction n as [|k IH]; intros it.
  - cbn [Nat.add load Z.of_nat]. rewrite Z.add_0_r.
    now destruct (load mem it m).
  - cbn [Nat.add load]. rewrite IH.
    replace (it + 1 + Z.of_nat k) with (it + Z.of_nat (S k)) by lia.
    destruct (mem it); [|reflexivity].
    destruct (load mem (it + 1) k); [|reflexivity].
    now destruct (load mem (it + Z.of_nat (S k)) m).
Qed.

Lemma length_load (mem : Memory) (it : Z) (n : nat) (bs : list byte) :
  load mem it n = Some bs -> length bs = n.
Proof.
  revert it bs. induction n as [|k IH]; intros it bs H; cbn [load] in H.
  - injection H as <-. reflexivity.
  - destruct (mem it); [|discriminate H].
    destruct (load mem (it + 1) k) as [rest|] eqn:E; [|discriminate H].
    injection H as <-. cbn [length]. f_equal. exact (IH _ _ E).
Qed.

Lemma app_same_length {A : Type} (a a' b b' : list A) :
  length a = length a' -> a ++ b = a' ++ b' -> a = a' /\ b = b'.
Proof.
  revert a'. induction a as [|x a IH]; intros [|x' a'] Hl H;
    simpl in *; try discriminate.
  - now split.
  - injection H as -> H. injection Hl as Hl.
    destruct (IH a' Hl H) as [-> ->]. now split.
Qed.

Lemma holds_app (mem : Memory) (it : Z) (a b : list byte) :
  holds mem it (a ++ b) ->
  holds mem it a /\ holds mem (it + Z.of_nat (length a)) b.
Proof.
  unfold holds. rewrite length_app, load_app. intros H.
  destruct (load mem it (length a)) as [a'|] eqn:Ea; [|discriminate H].
  destruct (load mem (it + Z.of_nat (length a)) (length b)) as [b'|] eqn:Eb;
    [|discriminate H].
  injection H as H. apply length_load in Ea.
  apply app_same_length in H; [|exact Ea].
  destruct H as [-> ->]. now split.
Qed.

Lemma load_memory_of (base : Z) (pre buf : list byte) :
  load (memory_of base (pre ++ buf)) (base + Z.of_nat (length pre))
       (length buf) = Some buf.
Proof.
  revert pre. induction buf as [|b rest IH]; intros pre; [reflexivity|].
  cbn [length load].
  replace (pre ++ b :: rest) with ((pre ++ [b]) ++ rest)
    by (now rewrite <- app_assoc).
  replace (base + Z.of_nat (length pre) + 1)
    with (base + Z.of_nat (length (pre ++ [b])))
    by (rewrite length_app; simpl; lia).
  rewrite IH. rewrite <- app_assoc. cbn [app].
  unfold memory_of.
  destruct (Z.ltb_spec (base + Z.of_nat (length pre)) base); [lia|].
  replace (base + Z.of_nat (length pre) - base) with (Z.of_nat (length pre))
    by lia.
  rewrite Nat2Z.id, nth_error_app2, Nat.sub_diag by lia. reflexivity.
Qed.

(** A vector placed in memory is held there. *)
Lemma holds_memory_of (base : Z) (buf : list byte) :
  holds (memory_of base buf) base buf.
Proof.
  unfold holds. pose proof (load_memory_of base [] buf) as H.
  simpl in H. now rewrite Z.add_0_r in H.
Qed.

(** Past the end of the vector nothing is readable. *)
Lemma load_memory_of_short (base : Z) (buf : list byte) (n : nat) :
  (length buf < n)%nat -> load (memory_of base buf) base n = None.
Proof.
  intros Hn. destruct (load (memory_of base buf) base n) as [bs|] eqn:E;
    [|reflexivity].
  exfalso.
  replace n with (length buf + S (n - S (length buf)))%nat in E by lia.
  rewrite load_app in E.
  destruct (load (memory_of base buf) base (length buf)); [|discriminate E].
  cbn [load] in E. unfold memory_of at 1 in E.
  destruct (Z.ltb_spec (base + Z.of_nat (length buf)) base); [lia|].
  replace (base + Z.of_nat (length buf) - base) with (Z.of_nat (length buf))
    in E by lia.
  rewrite Nat2Z.id in E.
  assert (Hnone : nth_error buf (length buf) = None)
    by (apply nth_error_None; lia).
  rewrite Hnone in E. discriminate E.
Qed.

(** ** Laws of the primitive serializers *)

Lemma uint32_laws :
  serialize.Laws serialize.uint32_t serialize.valid_uint32 4.
Proof.
  split.
  - intros buf x. reflexivity.
  - intros x _. apply length_be_encode.
  - intros mem it dst x _ Hx H. unfold holds in H.
    cbn [serialize.write serialize.uint32_t app] in H.
    rewrite length_be_encode in H. cbn [serialize.read serialize.uint32_t].
    rewrite H, be_roundtrip; [reflexivity | exact Hx].
Qed.

Lemma bool_laws : serialize.Laws serialize.bool_t serialize.valid_bool 1.
Proof.
  split.
  - intros buf x. reflexivity.
  - intros x _. reflexivity.
  - intros mem it dst x _ _ H. unfold holds in H.
    cbn [serialize.write serialize.bool_t app length load] in H.
    cbn [serialize.read serialize.bool_t].
    destruct (mem it) as [b|]; [|discriminate H].
    injection H as ->. now destruct x.
Qed.

Lemma fr_modulus_fits : serialize.fr_modulus < 256 ^ Z.of_nat 32.
Proof. vm_compute. reflexivity. Qed.

Lemma fr_laws : serialize.Laws serialize.fr_t serialize.valid_fr 32.
Proof.
  split.
  - intros buf x. reflexivity.
  - intros x _. apply length_be_encode.
  - intros mem it dst x _ Hx H. unfold holds in H.
    cbn [serialize.write serialize.fr_t app] in H.
    rewrite length_be_encode in H. cbn [serialize.read serialize.fr_t].
    unfold serialize.valid_fr in Hx. pose proof fr_modulus_fits.
    rewrite H, be_roundtrip by lia. rewrite Z.mod_small by exact Hx.
    reflexivity.
Qed.

(** ** Laws of the array serializer, from those of its element type *)

Section ArrayLaws.
Context {T : Type} {ser : serialize.Serialize T}.
Context {valid : T -> Prop} {size : nat}.
Context (laws : serialize.Laws ser valid size).

Lemma write_array_appends (buf : list byte) (arr : list T) :
  serialize.write_array buf arr = buf ++ serialize.write_array [] arr.
Proof.
  revert buf. induction arr as [|e rest IH]; intros buf; simpl.
  - now rewrite app_nil_r.
  - rewrite IH, (IH (serialize.write [] e)).
    rewrite (serialize.write_appends (Laws := laws) buf e). now rewrite app_assoc.
Qed.

Lemma write_array_size (n : nat) (arr : list T) :
  serialize.valid_array n valid arr ->
  length (serialize.write_array [] arr) = (n * size)%nat.
Proof.
  intros [Hn Hv]. subst n. induction Hv as [|e rest He _ IH]; simpl.
  - reflexivity.
  - rewrite write_array_appends, length_app, IH.
    now rewrite (serialize.write_size (Laws := laws) e He).
Qed.

Lemma read_array_write (mem : Memory) (it : Z) (dst arr : list T) :
  length dst = length arr -> Forall valid dst -> Forall valid arr ->
  holds mem it (serialize.write_array [] arr) ->
  serialize.read_array mem it dst
  = Done arr (it + Z.of_nat (length arr * size)).
Proof.
  revert it dst. induction arr as [|e rest IH]; intros it dst Hl Hd Ha H.
  - destruct dst; [|discriminate]. simpl. now rewrite Z.add_0_r.
  - destruct dst as [|d ds]; [discriminate|].
    inversion Hd as [|? ? Hd1 Hd2]; subst.
    inversion Ha as [|? ? Ha1 Ha2]; subst.
    injection Hl as Hl. cbn [serialize.write_array] in H.
    rewrite write_array_appends in H. apply holds_app in H as [H1 H2].
    cbn [serialize.read_array].
    rewrite (serialize.read_write (Laws := laws) d e Hd1 Ha1 H1). cbn [and_then].
    rewrite (serialize.write_size (Laws := laws) e Ha1) in H2.
    rewrite (IH _ ds Hl Hd2 Ha2 H2). cbn [and_then]. f_equal.
    cbn [length]. lia.
Qed.

Lemma array_laws (n : nat) :
  serialize.Laws (serialize.array (T := T)) (serialize.valid_array n valid)
                 (n * size).
Proof.
  split.
  - intros buf x. apply write_array_appends.
  - intros x Hx. now apply write_array_size.
  - intros mem it dst x [Hd1 Hd2] [Hx1 Hx2] H.
    cbn [serialize.read serialize.array]. subst n.
    rewrite (read_array_write mem it dst x) by (auto; congruence).
    now rewrite Hx1.
Qed.
End ArrayLaws.

(** ** [FunctionSignature]: serialization *)

Section FunctionSignatureSerialization.
Import function_signature.
Context {T : NCT}.
Context {ser_uint32 : serialize.Serialize (@uint32 T)}.
Context {ser_boolean : serialize.Serialize (@boolean T)}.
Context {valid_uint32 : @uint32 T -> Prop} {size_uint32 : nat}.
Context {valid_boolean : @boolean T -> Prop} {size_boolean : nat}.
Context (laws_uint32 : serialize.Laws ser_uint32 valid_uint32 size_uint32).
Context (laws_boolean : serialize.Laws ser_boolean valid_boolean size_boolean).

Lemma FunctionSignature_write_chunks (buf : list byte)
      (x : FunctionSignature T) :
  write buf x
  = buf ++ serialize.write [] (vk_index x)
        ++ serialize.write [] (is_private x)
        ++ serialize.write [] (is_constructor x).
Proof.
  unfold write.
  rewrite (serialize.write_appends (Laws := laws_boolean) _ (is_constructor x)).
  rewrite (serialize.write_appends (Laws := laws_boolean) _ (is_private x)).
  rewrite (serialize.write_appends (Laws := laws_uint32) buf (vk_index x)).
  now rewrite <- !app_assoc.
Qed.

(** The structure-level serializer obeys the laws once those of its member
    types do. *)
Lemma FunctionSignature_laws :
  serialize.Laws (Serialize_FunctionSignature (T := T))
                 (valid_members valid_uint32 valid_boolean)
                 (size_members size_uint32 size_boolean).
Proof.
  split.
  - intros buf x. cbn [serialize.write Serialize_FunctionSignature].
    rewrite (FunctionSignature_write_chunks buf x).
    now rewrite (FunctionSignature_write_chunks [] x).
  - intros x (Hv & Hp & Hc).
    cbn [serialize.write Serialize_FunctionSignature].
    rewrite FunctionSignature_write_chunks. cbn [app].
    rewrite !length_app.
    rewrite (serialize.write_size (Laws := laws_uint32) _ Hv).
    rewrite (serialize.write_size (Laws := laws_boolean) _ Hp).
    rewrite (serialize.write_size (Laws := laws_boolean) _ Hc).
    unfold size_members. lia.
  - intros mem it dst x (Dv & Dp & Dc) (Hv & Hp & Hc) H.
    cbn [serialize.write Serialize_FunctionSignature] in H.
    rewrite FunctionSignature_write_chunks in H. cbn [app] in H.
    apply holds_app in H as [H1 H]. apply holds_app in H as [H2 H3].
    rewrite (serialize.write_size (Laws := laws_uint32) _ Hv) in H2, H3.
    rewrite (serialize.write_size (Laws := laws_boolean) _ Hp) in H3.
    cbn [serialize.read Serialize_FunctionSignature]. unfold read.
    rewrite (serialize.read_write (Laws := laws_uint32) _ _ Dv Hv H1).
    cbn [and_then set_vk_index set_is_private is_private is_constructor vk_index].
    rewrite (serialize.read_write (Laws := laws_boolean) _ _ Dp Hp H2).
    cbn [and_then set_vk_index set_is_private is_private is_constructor vk_index].
    rewrite (serialize.read_write (Laws := laws_boolean) _ _ Dc Hc H3).
    cbn [and_then]. destruct x as [v p c]. unfold set_is_constructor.
    cbn. f_equal. unfold size_members. lia.
Qed.
End FunctionSignatureSerialization.

(** The native instance, with the 4-byte and 1-byte member encodings. *)
Lemma native_FunctionSignature_laws {P : CompressionPrimitive} :
  serialize.Laws native.ser_FunctionSignature function_signature.valid
                 function_signature.size.
Proof.
  exact (FunctionSignature_laws (T := NativeTypes)
           (ser_uint32 := native.ser_uint32) (ser_boolean := native.ser_boolean)
           uint32_laws bool_laws).
Qed.

(** [read] on the native instance, spelled out: it takes the six bytes at
    the cursor, whatever they are, and has no defined result when one of
    the six addresses is not readable. *)
Lemma native_FunctionSignature_read {P : CompressionPrimitive}
      (mem : Memory) (it : Z)
      (dst : function_signature.FunctionSignature NativeTypes) :
  serialize.read (Serialize := native.ser_FunctionSignature) mem it dst
  = match load mem it 4, mem (it + 4), mem (it + 4 + 1) with
    | Some bs, Some p, Some c =>
        Done (native.fs (be_decode bs 0)
                        (negb (Byte.eqb p x00))
                        (negb (Byte.eqb c x00)))
             (it + 4 + 1 + 1)
    | _, _, _ => Undefined
    end.
Proof.
  cbn [serialize.read native.ser_FunctionSignature
       function_signature.Serialize_FunctionSignature].
  unfold function_signature.read.
  cbn [serialize.read native.ser_uint32 native.ser_boolean
       serialize.uint32_t serialize.bool_t].
  destruct (load mem it 4) as [bs|]; cbn [and_then]; [|reflexivity].
  cbn [function_signature.set_vk_index function_signature.is_private].
  destruct (mem (it + 4)) as [p|]; cbn [and_then]; [|reflexivity].
  cbn [function_signature.set_is_private function_signature.is_constructor].
  destruct (mem (it + 4 + 1)) as [c|]; cbn [and_then]; reflexivity.
Qed.

(** The six bytes at the cursor are the four of [vk_index] and the two of
    the booleans. *)
Lemma load_six (mem : Memory) (it : Z) :
  load mem it 6
  = match load mem it 4, mem (it + 4), mem (it + 4 + 1) with
    | Some bs, Some p, Some c => Some (bs ++ [p; c])
    | _, _, _ => None
    end.
Proof.
  change 6%nat with (4 + 2)%nat. rewrite load_app.
  change (Z.of_nat 4) with 4.
  destruct (load mem it 4); [|reflexivity].
  cbn [load].
  destruct (mem (it + 4)); [|reflexivity].
  now destruct (mem (it + 4 + 1)).
Qed.

(** ** [FunctionSignature]: equality *)

Lemma FunctionSignature_eqb_members {P : CompressionPrimitive}
      (a b : function_signature.FunctionSignature NativeTypes) :
  function_signature.eqb a b = true <->
  function_signature.vk_index a = function_signature.vk_index b /\
  function_signature.is_private a = function_signature.is_private b /\
  function_signature.is_constructor a = function_signature.is_constructor b.
Proof.
  unfold function_signature.eqb.
  rewrite !andb_true_iff, Z.eqb_eq, !Bool.eqb_true_iff. tauto.
Qed.

(** C5. The three members [vk_index], [is_private], [is_constructor], in
    this order and no other data, decide equality, make up the sequence
    handed to [compress] under [FUNCTION_SIGNATURE] (in either
    representation), are the bytes [write] appends (4 + 1 + 1) and are what
    [read] takes from the cursor, first to last ([read] has no defined
    result when one of the six addresses is not readable). *)
Theorem FunctionSignature_field_invariant {P : CompressionPrimitive} :
  (forall a b : function_signature.FunctionSignature NativeTypes,
      function_signature.eqb a b = true <->
      function_signature.vk_index a = function_signature.vk_index b /\
      function_signature.is_private a = function_signature.is_private b /\
      function_signature.is_constructor a
      = function_signature.is_constructor b) /\
  (forall a b : function_signature.FunctionSignature NativeTypes,
      function_signature.eqb a b = true <-> a = b) /\
  (forall (T : NCT) (x : function_signature.FunctionSignature T),
      function_signature.hash x
      = compress [ fr_of_uint32 (function_signature.vk_index x);
                   fr_of_boolean (function_signature.is_private x);
                   fr_of_boolean (function_signature.is_constructor x) ]
                 FUNCTION_SIGNATURE) /\
  (forall (buf : list byte)
          (x : function_signature.FunctionSignature NativeTypes),
      serialize.write (Serialize := native.ser_FunctionSignature) buf x
      = buf ++ be_encode 4 (function_signature.vk_index x)
            ++ [if function_signature.is_private x then x01 else x00]
            ++ [if function_signature.is_constructor x then x01 else x00]) /\
  (forall (mem : Memory) (it : Z)
          (dst : function_signature.FunctionSignature NativeTypes),
      serialize.read (Serialize := native.ser_FunctionSignature) mem it dst
      = match load mem it 4, mem (it + 4), mem (it + 4 + 1) with
        | Some bs, Some p, Some c =>
            Done (native.fs (be_decode bs 0)
                            (negb (Byte.eqb p x00))
                            (negb (Byte.eqb c x00)))
                 (it + 4 + 1 + 1)
        | _, _, _ => Undefined
        end).
Proof.
  split; [exact FunctionSignature_eqb_members|].
  split.
  { intros a b. rewrite FunctionSignature_eqb_members. split.
    - destruct a, b. cbn. intros (-> & -> & ->). reflexivity.
    - intros ->. auto. }
  split; [reflexivity|].
  split.
  { intros buf x. cbn. now rewrite <- !app_assoc. }
  intros mem it dst. apply native_FunctionSignature_read.
Qed.

(** C8. [empty()] hands five initializer clauses to an aggregate of three
    members: the braced list is rejected and no structure is returned; three
    zero clauses would give the zero-valued structure. *)
Theorem FunctionSignature_empty_is_rejected {P : CompressionPrimitive} :
  function_signature.empty
  = ill_formed (excess_initializers 5 function_signature.member_count) /\
  (forall x, function_signature.empty <> well_formed x) /\
  function_signature.aggregate_initialize [0; 0; 0]
  = well_formed (native.fs 0 false false).
Proof.
  split; [reflexivity|]. split; [|reflexivity].
  intros x H. discriminate H.
Qed.

(** C6. Instantiating [to_circuit_type] for the circuit representation, or
    [set_public] for the native one, trips the [static_assert]: the call is
    rejected outright and there is no function that could return an error
    value.  [PublicCircuitPublicInputs] declares no [set_public] at all, so
    that call is rejected in every representation, the native one
    included.  The other representation is accepted. *)
Theorem representation_preconditions
        {P : CompressionPrimitive}
        {CallContext StateTransition StateRead : NCT -> Type}
        {str_CallContext : abi.Structure CallContext}
        {str_StateTransition : abi.Structure StateTransition}
        {str_StateRead : abi.Structure StateRead} :
  function_signature.to_circuit_type Circuit
  = ill_formed static_assertion_failed /\
  function_signature.set_public Native
  = ill_formed static_assertion_failed /\
  public_circuit_public_inputs.to_circuit_type
    (CallContext := CallContext) (StateTransition := StateTransition)
    (StateRead := StateRead) Circuit
  = ill_formed static_assertion_failed /\
  (forall r, public_circuit_public_inputs.set_public r
             = ill_formed (no_member_named "set_public")) /\
  function_signature.to_circuit_type Native
  = well_formed function_signature.to_circuit_type_body /\
  function_signature.set_public Circuit
  = well_formed function_signature.set_public_body /\
  public_circuit_public_inputs.to_circuit_type
    (CallContext := CallContext) (StateTransition := StateTransition)
    (StateRead := StateRead) Native
  = well_formed public_circuit_public_inputs.to_circuit_type_body /\
  (forall r,
      (exists f, function_signature.to_circuit_type r = well_formed f) <->
      is_same_NativeTypes r = true) /\
  (forall r,
      (exists f, function_signature.set_public r = well_formed f) <->
      is_same_NativeTypes r = false).
Proof.
  split; [reflexivity|]. split; [reflexivity|]. split; [reflexivity|].
  split; [intros r; reflexivity|].
  split; [reflexivity|]. split; [reflexivity|]. split; [reflexivity|].
  split; intros [|]; cbn;
    (split;
     [ intros [f H]; first [reflexivity | discriminate H]
     | intros H; first [discriminate H | eexists; reflexivity] ]).
Qed.

(** ** [PublicCircuitPublicInputs]: serialization *)

Ltac members :=
  cbn [and_then
       public_circuit_public_inputs.call_context
       public_circuit_public_inputs.custom_inputs
       public_circuit_public_inputs.custom_outputs
       public_circuit_public_inputs.emitted_events
       public_circuit_public_inputs.state_transitions
       public_circuit_public_inputs.state_reads
       public_circuit_public_inputs.public_call_stack
       public_circuit_public_inputs.contract_deployment_call_stack
       public_circuit_public_inputs.partial_l1_call_stack
       public_circuit_public_inputs.old_private_data_tree_root
       public_circuit_public_inputs.prover_address
       public_circuit_public_inputs.set_call_context
       public_circuit_public_inputs.set_custom_inputs
       public_circuit_public_inputs.set_custom_outputs
       public_circuit_public_inputs.set_emitted_events
       public_circuit_public_inputs.set_state_transitions
       public_circuit_public_inputs.set_state_reads
       public_circuit_public_inputs.set_public_call_stack
       public_circuit_public_inputs.set_contract_deployment_call_stack
       public_circuit_public_inputs.set_partial_l1_call_stack
       public_circuit_public_inputs.set_old_private_data_tree_root
       public_circuit_public_inputs.set_prover_address].

Section PublicInputsSerialization.
Import public_circuit_public_inputs.
Context {K : Constants}.
Context {CallContext StateTransition StateRead : NCT -> Type} {T : NCT}.
Context {ser_fr : serialize.Serialize (@fr T)}.
Context {ser_address : serialize.Serialize (@address T)}.
Context {ser_StateTransition : serialize.Serialize (StateTransition T)}.
Context {ser_StateRead : serialize.Serialize (StateRead T)}.
Context {EmittedOuputs : Type}.
Context {ser_emitted_ouputs : serialize.Serialize EmittedOuputs}.
#[local] Abbreviation PIS :=
  (PublicCircuitPublicInputs CallContext StateTransition StateRead T).

Ltac step_read H :=
  match type of H with
  | and_then ?r _ = Done _ _ =>
      destruct r eqn:?; cbn [and_then] in H;
      [|discriminate H|discriminate H]
  end.

(** [read] assigns every member it names and never [call_context]. *)
Lemma read_keeps_call_context (mem : Memory) (it : Z) (dst : PIS)
      (eo : EmittedOuputs) (pis' : PIS) (it' : Z) :
  read mem it dst eo = Done pis' it' ->
  call_context pis' = call_context dst.
Proof.
  unfold read. intros H. repeat step_read H.
  injection H as <- _. reflexivity.
Qed.

(** [write] appends nothing that depends on [call_context]. *)
Lemma write_ignores_call_context (buf : list byte) (pis : PIS)
      (eo : EmittedOuputs) (cc : CallContext T) :
  write buf (set_call_context cc pis) eo = write buf pis eo.
Proof. reflexivity. Qed.

Context {valid_fr : @fr T -> Prop} {size_fr : nat}.
Context {valid_address : @address T -> Prop} {size_address : nat}.
Context {valid_StateTransition : StateTransition T -> Prop}.
Context {size_StateTransition : nat}.
Context {valid_StateRead : StateRead T -> Prop} {size_StateRead : nat}.
Context {valid_emitted_ouputs : EmittedOuputs -> Prop}.
Context {size_emitted_ouputs : nat}.
Context (laws_fr : serialize.Laws ser_fr valid_fr size_fr).
Context (laws_address :
           serialize.Laws ser_address valid_address size_address).
Context (laws_StateTransition :
           serialize.Laws ser_StateTransition valid_StateTransition
                          size_StateTransition).
Context (laws_StateRead :
           serialize.Laws ser_StateRead valid_StateRead size_StateRead).
Context (laws_emitted_ouputs :
           serialize.Laws ser_emitted_ouputs valid_emitted_ouputs
                          size_emitted_ouputs).

#[local] Abbreviation valid_pis :=
  (valid valid_fr valid_address valid_StateTransition valid_StateRead).
#[local] Abbreviation size_pis :=
  (size size_fr size_address size_StateTransition size_StateRead
        size_emitted_ouputs).

(** The bytes of [write], member by member: [call_context] is not among
    them, [emitted_ouputs] is. *)
Lemma write_chunks (buf : list byte) (pis : PIS) (eo : EmittedOuputs) :
  write buf pis eo
  = buf ++ serialize.write [] (custom_inputs pis)
        ++ serialize.write [] (custom_outputs pis)
        ++ serialize.write [] (emitted_events pis)
        ++ serialize.write [] eo
        ++ serialize.write [] (state_transitions pis)
        ++ serialize.write [] (state_reads pis)
        ++ serialize.write [] (public_call_stack pis)
        ++ serialize.write [] (contract_deployment_call_stack pis)
        ++ serialize.write [] (partial_l1_call_stack pis)
        ++ serialize.write [] (old_private_data_tree_root pis)
        ++ serialize.write [] (prover_address pis).
Proof.
  unfold write. cbn [serialize.write serialize.array].
  rewrite (serialize.write_appends (Laws := laws_address) _ (prover_address pis)).
  rewrite (serialize.write_appends (Laws := laws_fr) _
             (old_private_data_tree_root pis)).
  rewrite (write_array_appends laws_fr _ (partial_l1_call_stack pis)).
  rewrite (write_array_appends laws_fr _ (contract_deployment_call_stack pis)).
  rewrite (write_array_appends laws_fr _ (public_call_stack pis)).
  rewrite (write_array_appends laws_StateRead _ (state_reads pis)).
  rewrite (write_array_appends laws_StateTransition _ (state_transitions pis)).
  rewrite (serialize.write_appends (Laws := laws_emitted_ouputs) _ eo).
  rewrite (write_array_appends laws_fr _ (emitted_events pis)).
  rewrite (write_array_appends laws_fr _ (custom_outputs pis)).
  rewrite (write_array_appends laws_fr buf (custom_inputs pis)).
  now rewrite <- !app_assoc.
Qed.

(** Reading back what [write] appended restores every declared member but
    [call_context], which stays what the destination held. *)
Lemma read_write_except_call_context (mem : Memory) (it : Z) (dst x : PIS)
      (eo eo_x : EmittedOuputs) :
  valid_pis dst -> valid_pis x ->
  valid_emitted_ouputs eo -> valid_emitted_ouputs eo_x ->
  holds mem it (write [] x eo_x) ->
  read mem it dst eo
  = Done (set_call_context (call_context dst) x) (it + Z.of_nat size_pis).
Proof.
  intros (D1 & D2 & D3 & D4 & D5 & D6 & D7 & D8 & D9 & D10)
         (X1 & X2 & X3 & X4 & X5 & X6 & X7 & X8 & X9 & X10) De Xe H.
  rewrite write_chunks in H. cbn [app] in H.
  apply holds_app in H as [H1 H].
  rewrite (serialize.write_size (Laws := array_laws laws_fr _) _ X1) in H.
  apply holds_app in H as [H2 H].
  rewrite (serialize.write_size (Laws := array_laws laws_fr _) _ X2) in H.
  apply holds_app in H as [H3 H].
  rewrite (serialize.write_size (Laws := array_laws laws_fr _) _ X3) in H.
  apply holds_app in H as [H4 H].
  rewrite (serialize.write_size (Laws := laws_emitted_ouputs) _ Xe) in H.
  apply holds_app in H as [H5 H].
  rewrite (serialize.write_size
             (Laws := array_laws laws_StateTransition _) _ X4) in H.
  apply holds_app in H as [H6 H].
  rewrite (serialize.write_size (Laws := array_laws laws_StateRead _) _ X5)
    in H.
  apply holds_app in H as [H7 H].
  rewrite (serialize.write_size (Laws := array_laws laws_fr _) _ X6) in H.
  apply holds_app in H as [H8 H].
  rewrite (serialize.write_size (Laws := array_laws laws_fr _) _ X7) in H.
  apply holds_app in H as [H9 H].
  rewrite (serialize.write_size (Laws := array_laws laws_fr _) _ X8) in H.
  apply holds_app in H as [H10 H11].
  rewrite (serialize.write_size (Laws := laws_fr) _ X9) in H11.
  unfold read.
  rewrite (serialize.read_write (Laws := array_laws laws_fr _) _ _ D1 X1 H1).
  members.
  rewrite (serialize.read_write (Laws := array_laws laws_fr _) _ _ D2 X2 H2).
  members.
  rewrite (serialize.read_write (Laws := array_laws laws_fr _) _ _ D3 X3 H3).
  members.
  rewrite (serialize.read_write (Laws := laws_emitted_ouputs) _ _ De Xe H4).
  members.
  rewrite (serialize.read_write
             (Laws := array_laws laws_StateTransition _) _ _ D4 X4 H5).
  members.
  rewrite (serialize.read_write
             (Laws := array_laws laws_StateRead _) _ _ D5 X5 H6).
  members.
  rewrite (serialize.read_write (Laws := array_laws laws_fr _) _ _ D6 X6 H7).
  members.
  rewrite (serialize.read_write (Laws := array_laws laws_fr _) _ _ D7 X7 H8).
  members.
  rewrite (serialize.read_write (Laws := array_laws laws_fr _) _ _ D8 X8 H9).
  members.
  rewrite (serialize.read_write (Laws := laws_fr) _ _ D9 X9 H10).
  members.
  rewrite (serialize.read_write (Laws := laws_address) _ _ D10 X10 H11).
  members. destruct x. members. f_equal. unfold size. lia.
Qed.

(** C10. [read] never assigns [call_context] and [write] never appends its
    bytes: whatever [read] returns has the [call_context] the destination
    held before, [write] is blind to [call_context], and on the bytes of
    [write(x)] every other declared member is overwritten with that of
    [x]. *)
Theorem read_write_frame_call_context :
  (forall (mem : Memory) (it : Z) (dst : PIS) (eo : EmittedOuputs)
          (pis' : PIS) (it' : Z),
      read mem it dst eo = Done pis' it' ->
      call_context pis' = call_context dst) /\
  (forall (buf : list byte) (pis : PIS) (eo : EmittedOuputs)
          (cc : CallContext T),
      write buf (set_call_context cc pis) eo = write buf pis eo) /\
  (forall (mem : Memory) (it : Z) (dst x : PIS) (eo eo_x : EmittedOuputs),
      valid_pis dst -> valid_pis x ->
      valid_emitted_ouputs eo -> valid_emitted_ouputs eo_x ->
      holds mem it (write [] x eo_x) ->
      read mem it dst eo
      = Done (set_call_context (call_context dst) x)
             (it + Z.of_nat size_pis)).
Proof.
  split; [exact read_keeps_call_context|].
  split; [exact write_ignores_call_context|].
  exact read_write_except_call_context.
Qed.

End PublicInputsSerialization.

(** ** The sample data are valid *)

Ltac solve_valid :=
  repeat first
    [ split
    | lia
    | reflexivity
    | constructor
    | progress cbv [serialize.valid_fr serialize.valid_uint32
                    serialize.valid_bool serialize.fr_modulus
                    function_signature.valid function_signature.valid_members
                    function_signature.vk_index function_signature.is_private
                    function_signature.is_constructor native.fs
                    sample.emitted_ouputs0] ].

Lemma sample_pis0_valid :
  public_circuit_public_inputs.valid
    (K := sample.constants) (T := NativeTypes (P := sample.primitive))
    serialize.valid_fr serialize.valid_fr
    function_signature.valid function_signature.valid sample.pis0.
Proof. unfold public_circuit_public_inputs.valid. cbn. solve_valid. Qed.

Lemma sample_zero_valid :
  public_circuit_public_inputs.valid
    (K := sample.constants) (T := NativeTypes (P := sample.primitive))
    serialize.valid_fr serialize.valid_fr
    function_signature.valid function_signature.valid sample.zero.
Proof. unfold public_circuit_public_inputs.valid. cbn. solve_valid. Qed.

(** On the sample data: the bytes of [write(pis0)] are read into a
    zero-valued destination; every member comes back but [call_context]. *)
Lemma read_write_frame_call_context_witness :
  serialize.valid_fr 0 /\ serialize.valid_fr sample.emitted_ouputs0 /\
  holds (memory_of 0 (sample.write_pis [] sample.pis0 sample.emitted_ouputs0))
        0 (sample.write_pis [] sample.pis0 sample.emitted_ouputs0) /\
  sample.read_pis
    (memory_of 0 (sample.write_pis [] sample.pis0 sample.emitted_ouputs0))
    0 sample.zero 0
  = Done (public_circuit_public_inputs.set_call_context
            (public_circuit_public_inputs.call_context sample.zero)
            sample.pis0)
         (0 + Z.of_nat 370).
Proof.
  assert (V0 : serialize.valid_fr 0) by solve_valid.
  assert (V1 : serialize.valid_fr sample.emitted_ouputs0) by solve_valid.
  pose proof (holds_memory_of 0
                (sample.write_pis [] sample.pis0 sample.emitted_ouputs0)) as Hm.
  repeat (split; [assumption|]).
  exact (proj2 (proj2
    (read_write_frame_call_context
       (K := sample.constants) (T := NativeTypes (P := sample.primitive))
       (ser_fr := native.ser_fr) (ser_address := native.ser_address)
       (ser_StateTransition := native.ser_FunctionSignature)
       (ser_StateRead := native.ser_FunctionSignature)
       (ser_emitted_ouputs := serialize.fr_t)
       fr_laws fr_laws native_FunctionSignature_laws
       native_FunctionSignature_laws fr_laws))
    _ 0 sample.zero sample.pis0 0 sample.emitted_ouputs0
    sample_zero_valid sample_pis0_valid V0 V1 Hm).
Defined.

(** ** Round trip *)

(** [FunctionSignature] round-trips: reading the bytes of [write(x)] into
    any destination yields [x] and advances the cursor by 6. *)
Lemma FunctionSignature_round_trip {P : CompressionPrimitive}
      (mem : Memory) (it : Z)
      (dst x : function_signature.FunctionSignature NativeTypes) :
  function_signature.valid x ->
  holds mem it (serialize.write (Serialize := native.ser_FunctionSignature)
                                [] x) ->
  serialize.read (Serialize := native.ser_FunctionSignature) mem it dst
  = Done x (it + 6).
Proof.
  intros Hx H.
  assert (Hd : function_signature.valid
                 (native.fs 0 false false)) by solve_valid.
  pose proof (serialize.read_write (Laws := native_FunctionSignature_laws)
                (native.fs 0 false false) x Hd Hx H) as E.
  rewrite native_FunctionSignature_read in E |- *. rewrite E.
  reflexivity.
Qed.

(** C3. [PublicCircuitPublicInputs] does not round-trip.  On the sample
    structure [pis0], whose [call_context] is not zero: the bytes of
    [write(pis0)], read into a zero-valued destination, give back [pis0]
    with the destination's [call_context], which is not [pis0]; and [read]
    and [write] name a member, [emitted_ouputs], that the struct does not
    declare, so neither can be instantiated as written. *)
Theorem PublicCircuitPublicInputs_round_trip_loses_call_context :
  sample.read_pis
    (memory_of 0 (sample.write_pis [] sample.pis0 sample.emitted_ouputs0))
    0 sample.zero 0
  = Done (public_circuit_public_inputs.set_call_context
            (public_circuit_public_inputs.call_context sample.zero)
            sample.pis0)
         370 /\
  public_circuit_public_inputs.set_call_context
    (public_circuit_public_inputs.call_context sample.zero) sample.pis0
  <> sample.pis0 /\
  public_circuit_public_inputs.resolve_members
    public_circuit_public_inputs.serialized_members
  = ill_formed (no_member_named "emitted_ouputs").
Proof.
  split; [reflexivity|].
  split; [|reflexivity].
  intros H.
  apply (f_equal (fun p => function_signature.vk_index
                             (public_circuit_public_inputs.call_context p)))
    in H.
  change (0 = 7) in H. discriminate H.
Qed.

(** ** Short buffers *)

(** The structure-level [read] has no check of its own: when it reports a
    decoding error, the reader of one of its members raised it. *)
Lemma FunctionSignature_read_error_origin {T : NCT}
      {ser_uint32 : serialize.Serialize (@uint32 T)}
      {ser_boolean : serialize.Serialize (@boolean T)}
      (mem : Memory) (it : Z)
      (dst : function_signature.FunctionSignature T) :
  function_signature.read mem it dst = DecodingError ->
  (exists it' d,
      serialize.read (Serialize := ser_uint32) mem it' d = DecodingError) \/
  (exists it' d,
      serialize.read (Serialize := ser_boolean) mem it' d = DecodingError).
Proof.
  unfold function_signature.read. intros H.
  destruct (serialize.read mem it (function_signature.vk_index dst))
    as [v it1| |] eqn:E1; cbn [and_then] in H;
    [|left; eauto|discriminate H].
  match type of H with
  | and_then ?r _ = _ =>
      destruct r as [p it2| |] eqn:E2; cbn [and_then] in H;
      [|right; eauto|discriminate H]
  end.
  match type of H with
  | and_then ?r _ = _ =>
      destruct r as [c it3| |] eqn:E3; cbn [and_then] in H;
      [discriminate H|right; eauto|discriminate H]
  end.
Qed.

(** A vector of six bytes or more: [read] takes the first six. *)
Lemma FunctionSignature_read_of_vector {P : CompressionPrimitive}
      (base : Z) (b0 b1 b2 b3 b4 b5 : byte) (rest : list byte)
      (dst : function_signature.FunctionSignature NativeTypes) :
  serialize.read (Serialize := native.ser_FunctionSignature)
                 (memory_of base (b0 :: b1 :: b2 :: b3 :: b4 :: b5 :: rest))
                 base dst
  = Done (native.fs (be_decode [b0; b1; b2; b3] 0)
                    (negb (Byte.eqb b4 x00))
                    (negb (Byte.eqb b5 x00)))
         (base + 4 + 1 + 1).
Proof.
  pose proof (holds_memory_of base ([b0; b1; b2; b3; b4; b5] ++ rest)) as H.
  apply holds_app in H as [H _]. unfold holds in H.
  cbn [app length] in H. rewrite load_six in H.
  rewrite native_FunctionSignature_read.
  destruct (load _ base 4) as [bs|] eqn:E4; [|discriminate H].
  destruct (memory_of _ _ (base + 4)) as [p|]; [|discriminate H].
  destruct (memory_of _ _ (base + 4 + 1)) as [c|]; [|discriminate H].
  injection H as H. apply length_load in E4.
  apply (app_same_length bs [b0; b1; b2; b3] [p; c] [b4; b5] E4) in H.
  destruct H as [-> H]. injection H as -> ->. reflexivity.
Qed.

(** C7, as amended. [read] is given a cursor and no length: it cannot tell
    where the buffer ends and checks nothing.  A decoding error leaves
    [read] only if the reader of a member raised it, whatever the member
    readers are.  With the fixed-width member readers, [read] of a
    [FunctionSignature] from a vector shorter than its six bytes runs past
    the end of the vector, which is undefined behaviour and no reported
    error; from a vector of six bytes or more it returns the structure made
    of the first six and moves the cursor by six. *)
Theorem read_checks_no_length {P : CompressionPrimitive} :
  (forall (T : NCT)
          (ser_uint32 : serialize.Serialize (@uint32 T))
          (ser_boolean : serialize.Serialize (@boolean T))
          (mem : Memory) (it : Z)
          (dst : function_signature.FunctionSignature T),
      function_signature.read mem it dst = DecodingError ->
      (exists it' d,
          serialize.read (Serialize := ser_uint32) mem it' d
          = DecodingError) \/
      (exists it' d,
          serialize.read (Serialize := ser_boolean) mem it' d
          = DecodingError)) /\
  (forall (base : Z) (v : list byte)
          (dst : function_signature.FunctionSignature NativeTypes),
      (length v < function_signature.size)%nat ->
      serialize.read (Serialize := native.ser_FunctionSignature)
                     (memory_of base v) base dst
      = Undefined) /\
  (forall (base : Z) (v : list byte)
          (dst : function_signature.FunctionSignature NativeTypes),
      (function_signature.size <= length v)%nat ->
      serialize.read (Serialize := native.ser_FunctionSignature)
                     (memory_of base v) base dst
      = Done (native.fs (be_decode (firstn 4 v) 0)
                        (negb (Byte.eqb (nth 4 v x00) x00))
                        (negb (Byte.eqb (nth 5 v x00) x00)))
             (base + Z.of_nat function_signature.size)).
Proof.
  split; [|split].
  - intros T ser_uint32 ser_boolean mem it dst.
    apply FunctionSignature_read_error_origin.
  - intros base v dst Hv.
    pose proof (load_memory_of_short base v 6 Hv) as H.
    rewrite load_six in H. rewrite native_FunctionSignature_read.
    destruct (load _ base 4); [|reflexivity].
    destruct (memory_of _ _ (base + 4)); [|reflexivity].
    destruct (memory_of _ _ (base + 4 + 1)); [discriminate H|reflexivity].
  - intros base v dst Hv.
    destruct v as [|b0 [|b1 [|b2 [|b3 [|b4 [|b5 rest]]]]]];
      try (exfalso; cbn in Hv; lia).
    rewrite FunctionSignature_read_of_vector.
    cbn [firstn nth]. f_equal. cbn. lia.
Qed.

(** On a vector of three bytes and on one of eight. *)
Lemma read_checks_no_length_witness :
  (length [x00; x00; x07] < function_signature.size)%nat /\
  serialize.read
    (Serialize := native.ser_FunctionSignature (P := sample.primitive))
    (memory_of 16 [x00; x00; x07]) 16 (native.fs 9 true true)
  = Undefined /\
  (function_signature.size
   <= length [x00; x00; x00; x07; x01; x00; xff; xff])%nat /\
  serialize.read
    (Serialize := native.ser_FunctionSignature (P := sample.primitive))
    (memory_of 16 [x00; x00; x00; x07; x01; x00; xff; xff]) 16
    (native.fs 9 true true)
  = Done (native.fs 7 true false) 22.
Proof.
  assert (H3 : (length [x00; x00; x07] < function_signature.size)%nat)
    by (cbn; lia).
  assert (H8 : (function_signature.size
                <= length [x00; x00; x00; x07; x01; x00; xff; xff])%nat)
    by (cbn; lia).
  split; [exact H3|]. split.
  - exact (proj1 (proj2 (read_checks_no_length (P := sample.primitive)))
             16 [x00; x00; x07] (native.fs 9 true true) H3).
  - split; [exact H8|].
    exact (proj2 (proj2 (read_checks_no_length (P := sample.primitive)))
             16 [x00; x00; x00; x07; x01; x00; xff; xff]
             (native.fs 9 true true) H8).
Defined.

(** C7, as stated, fails: the caller's buffer is a vector of three bytes,
    shorter than the six bytes of a [FunctionSignature], and [read] reports
    no decoding error; it reads the three bytes and runs past the end of
    the vector. *)
Lemma read_of_short_buffer_reports_no_error :
  (length [x00; x00; x07] < function_signature.size)%nat /\
  load (memory_of 0 [x00; x00; x07]) 0 3 = Some [x00; x00; x07] /\
  memory_of 0 [x00; x00; x07] 3 = None /\
  serialize.read
    (Serialize := native.ser_FunctionSignature (P := sample.primitive))
    (memory_of 0 [x00; x00; x07]) 0 (native.fs 9 true true)
  = Undefined /\
  serialize.read
    (Serialize := native.ser_FunctionSignature (P := sample.primitive))
    (memory_of 0 [x00; x00; x07]) 0 (native.fs 9 true true)
  <> DecodingError.
Proof.
  split; [cbn; lia|]. split; [reflexivity|]. split; [reflexivity|].
  split; [reflexivity|]. discriminate.
Qed.

(** ** [PublicCircuitPublicInputs]: hashing *)

Section PublicInputsHash.
Import public_circuit_public_inputs.
Context {P : CompressionPrimitive}.
Context {CallContext StateTransition StateRead : NCT -> Type}.
Context {str_StateTransition : abi.Structure StateTransition}.
Context {str_StateRead : abi.Structure StateRead}.
#[local] Abbreviation NPIS :=
  (PublicCircuitPublicInputs CallContext StateTransition StateRead
                             NativeTypes).

Lemma native_map_array {A B : Type} (f : A -> ident B) (arr : list A) :
  unIdent (map_array f arr) = map (fun a => unIdent (f a)) arr.
Proof.
  induction arr as [|a rest IH]; [reflexivity|].
  cbn [map_array map]. cbn. now rewrite IH.
Qed.

(** The native [inputs] vector, in closed form. *)
Lemma native_hash_inputs (x : NPIS) :
  unIdent (hash_inputs (T := NativeTypes) x) = hashed_members x.
Proof.
  unfold hash_inputs, hashed_members, spread_arr_into_vec. cbn.
  rewrite !native_map_array. cbn. now rewrite <- !app_assoc.
Qed.

Lemma native_hash (x : NPIS) :
  unIdent (hash (T := NativeTypes) x)
  = compress_native (hashed_members x) PRIVATE_CIRCUIT_PUBLIC_INPUTS.
Proof.
  rewrite <- native_hash_inputs. reflexivity.
Qed.

(** C4, as amended. [hash()] compresses, under one fixed generator index, a
    sequence that starts with [custom_inputs], [custom_outputs],
    [emitted_events] element by element, then the [hash()] of each state
    transition and of each state read (one scalar per sub-structure), then
    the three call stacks element by element, then
    [old_private_data_tree_root]; what may follow depends on
    [prover_address] at most; [call_context] is left out and has no
    influence on the hash. *)
Theorem hash_flattening :
  (exists (tail : @address NativeTypes -> list Z) (g : GeneratorIndex),
      forall x : NPIS,
        unIdent (hash (T := NativeTypes) x)
        = compress_native
            ((custom_inputs x
              ++ custom_outputs x
              ++ emitted_events x
              ++ map (fun e => unIdent (abi.hash (T := NativeTypes) e))
                     (state_transitions x)
              ++ map (fun e => unIdent (abi.hash (T := NativeTypes) e))
                     (state_reads x)
              ++ public_call_stack x
              ++ contract_deployment_call_stack x
              ++ partial_l1_call_stack x
              ++ [old_private_data_tree_root x])
             ++ tail (prover_address x)) g) /\
  (forall (x : NPIS) (cc : CallContext NativeTypes),
      hash (T := NativeTypes) (set_call_context cc x)
      = hash (T := NativeTypes) x).
Proof.
  split.
  - exists (fun _ => []), PRIVATE_CIRCUIT_PUBLIC_INPUTS. intros x.
    rewrite native_hash, app_nil_r. reflexivity.
  - intros x cc. reflexivity.
Qed.

(** C2. [hash()] of [PublicCircuitPublicInputs] compresses under
    [PRIVATE_CIRCUIT_PUBLIC_INPUTS], the index named after another kind, the
    private-circuit public inputs: its hash is the canonical hash that kind
    has on the same sequence, whatever the compression. *)
Theorem PublicCircuitPublicInputs_hashes_under_the_private_index (x : NPIS) :
  unIdent (hash (T := NativeTypes) x)
  = canonical_hash PRIVATE_CIRCUIT_PUBLIC_INPUTS
                   (unIdent (hash_inputs (T := NativeTypes) x)) /\
  kind_of_index PRIVATE_CIRCUIT_PUBLIC_INPUTS
  = PrivateCircuitPublicInputs_kind /\
  kind_of_index PRIVATE_CIRCUIT_PUBLIC_INPUTS
  <> PublicCircuitPublicInputs_kind /\
  (forall g, kind_of_index g <> PublicCircuitPublicInputs_kind).
Proof.
  split; [|split; [reflexivity|split; [discriminate|]]].
  - rewrite native_hash, native_hash_inputs. reflexivity.
  - intros [|]; discriminate.
Qed.
End PublicInputsHash.

(** Two kinds that do hash under different indices are told apart by any
    compression that separates indices. *)
Lemma FunctionSignature_index_differs :
  FUNCTION_SIGNATURE <> PRIVATE_CIRCUIT_PUBLIC_INPUTS.
Proof. discriminate. Qed.

(** C4, as stated, fails on the sample structure: the sequence [hash()]
    builds has one scalar per sub-structure and stops at
    [old_private_data_tree_root]; the sequence the specification describes
    has the members of each sub-structure and ends with [prover_address].  Changing
    [prover_address] changes the latter and leaves the hash as it was. *)
Lemma hash_inputs_are_not_the_stated_flattening :
  sample.hash_inputs_pis sample.pis0
  = [11; 12; 21; 22; 31; 30783; 31714; 32674; 41; 51; 61; 71] /\
  sample.spec_flatten_pis sample.pis0
  = [11; 12; 21; 22; 31; 1; 1; 0; 2; 0; 1; 3; 0; 0; 41; 51; 61; 71; 81] /\
  sample.hash_inputs_pis sample.pis0
  <> sample.spec_flatten_pis sample.pis0 /\
  sample.hash_pis
    (public_circuit_public_inputs.set_prover_address
       (82 : @address (NativeTypes (P := sample.primitive))) sample.pis0)
  = sample.hash_pis sample.pis0 /\
  sample.spec_flatten_pis
    (public_circuit_public_inputs.set_prover_address
       (82 : @address (NativeTypes (P := sample.primitive))) sample.pis0)
  <> sample.spec_flatten_pis sample.pis0.
Proof.
  split; [reflexivity|]. split; [reflexivity|]. split; [|split].
  - intros H. apply (f_equal (@length Z)) in H.
    change (12%nat = 19%nat) in H. discriminate H.
  - reflexivity.
  - intros H. apply (f_equal (fun l => nth 18 l 0)) in H.
    change (82 = 81) in H. discriminate H.
Qed.

(** ** [rust_bind.hpp] *)


(** ** Composers, wires and values *)

Lemma extends_refl (c : Composer) : extends c c.
Proof. exists []. now rewrite app_nil_r. Qed.

Lemma extends_trans (c1 c2 c3 : Composer) :
  extends c1 c2 -> extends c2 c3 -> extends c1 c3.
Proof.
  intros [m1 H1] [m2 H2]. exists (m1 ++ m2).
  now rewrite H2, H1, app_assoc.
Qed.

(** A wire keeps its value when the composer grows. *)
Lemma denotes_extends (c c' : Composer) (w : field_t) (v : Z) :
  extends c c' -> denotes c w v -> denotes c' w v.
Proof.
  unfold denotes, get_variable. intros [more ->] H.
  rewrite nth_error_app1; [exact H|].
  apply nth_error_Some. congruence.
Qed.

Lemma Forall2_denotes_extends (c c' : Composer) (ws : list field_t)
      (vs : list Z) :
  extends c c' -> Forall2 (denotes c) ws vs -> Forall2 (denotes c') ws vs.
Proof.
  intros He H. induction H; constructor; eauto using denotes_extends.
Qed.

Lemma add_variable_extends (v : Z) (c : Composer) :
  extends c (snd (runState (add_variable v) c)).
Proof. exists [v]. reflexivity. Qed.

Lemma add_variable_value (v : Z) (c : Composer) :
  get_variable (snd (runState (add_variable v) c))
               (fst (runState (add_variable v) c)) = Some v.
Proof.
  unfold get_variable. cbn.
  rewrite nth_error_app2 by lia. now rewrite Nat.sub_diag.
Qed.

(** [to_ct] witnesses its argument: the new wire carries it. *)
Lemma to_ct_fr_spec (v : Z) (c : Composer) :
  extends c (snd (runState (to_ct_fr v) c)) /\
  denotes (snd (runState (to_ct_fr v) c)) (fst (runState (to_ct_fr v) c)) v.
Proof.
  split; [apply add_variable_extends | apply add_variable_value].
Qed.

Lemma to_ct_uint32_spec (v : Z) (c : Composer) :
  extends c (snd (runState (to_ct_uint32 v) c)) /\
  denotes (snd (runState (to_ct_uint32 v) c))
          (field_of_uint (fst (runState (to_ct_uint32 v) c))) v.
Proof.
  split; [apply add_variable_extends | apply add_variable_value].
Qed.

Lemma to_ct_bool_spec (b : bool) (c : Composer) :
  extends c (snd (runState (to_ct_bool b) c)) /\
  denotes (snd (runState (to_ct_bool b) c))
          (field_of_bool (fst (runState (to_ct_bool b) c)))
          (if b then 1 else 0).
Proof.
  split; [apply add_variable_extends | apply add_variable_value].
Qed.

(** Running a bind is running its two parts in sequence. *)
Lemma run_bind {A B : Type} (m : state Composer A)
      (f : A -> state Composer B) (c : Composer) :
  runState (bind m f) c
  = runState (f (fst (runState m c))) (snd (runState m c)).
Proof. cbn. now destruct (runState m c). Qed.

Lemma run_ret {A : Type} (a : A) (c : Composer) :
  runState (ret a) c = (a, c).
Proof. reflexivity. Qed.

(** [to_ct] on an array: one wire per element, in order. *)
Lemma to_ct_array_spec (vs : list Z) (c : Composer) :
  extends c (snd (runState (to_ct_array vs) c)) /\
  Forall2 (denotes (snd (runState (to_ct_array vs) c)))
          (fst (runState (to_ct_array vs) c)) vs.
Proof.
  unfold to_ct_array. revert c.
  induction vs as [|v rest IH]; intros c.
  - split; [apply extends_refl | constructor].
  - cbn [map_array]. rewrite !run_bind, run_ret. cbn [fst snd].
    destruct (to_ct_fr_spec v c) as [E1 D1].
    destruct (IH (snd (runState (to_ct_fr v) c))) as [E2 D2].
    split; [eauto using extends_trans|].
    constructor; [eauto using denotes_extends | exact D2].
Qed.

(** ** Conversion soundness *)

Section ConversionSoundness.
Context {P : CompressionPrimitive}.
Context (agrees : CompressionAgrees P).

(** The wires of a converted [FunctionSignature] carry, member by member,
    the values the native structure hashes. *)
Lemma FunctionSignature_conversion
      (x : function_signature.FunctionSignature NativeTypes) (c : Composer) :
  extends c (snd (runState (function_signature.to_circuit_type_body x) c)) /\
  Forall2
    (denotes (snd (runState (function_signature.to_circuit_type_body x) c)))
    (function_signature.hash_inputs (T := CircuitTypes)
       (fst (runState (function_signature.to_circuit_type_body x) c)))
    (function_signature.hash_inputs (T := NativeTypes) x).
Proof.
  unfold function_signature.to_circuit_type_body.
  rewrite !run_bind, run_ret. cbn [fst snd].
  destruct (to_ct_uint32_spec (function_signature.vk_index x) c) as [E1 D1].
  set (c1 := snd (runState (to_ct_uint32 (function_signature.vk_index x)) c))
    in *.
  destruct (to_ct_bool_spec (function_signature.is_private x) c1) as [E2 D2].
  set (c2 := snd (runState (to_ct_bool (function_signature.is_private x)) c1))
    in *.
  destruct (to_ct_bool_spec (function_signature.is_constructor x) c2)
    as [E3 D3].
  split; [eauto using extends_trans|].
  unfold function_signature.hash_inputs.
  cbn [function_signature.vk_index function_signature.is_private
       function_signature.is_constructor fr_of_uint32 fr_of_boolean
       CircuitTypes NativeTypes].
  repeat constructor;
    eauto using denotes_extends, extends_trans.
Qed.

Lemma FunctionSignature_hash_agrees
      (x : function_signature.FunctionSignature NativeTypes)
      (x' : function_signature.FunctionSignature CircuitTypes)
      (c : Composer) :
  Forall2 (denotes c)
          (function_signature.hash_inputs (T := CircuitTypes) x')
          (function_signature.hash_inputs (T := NativeTypes) x) ->
  extends c (snd (runState (function_signature.hash (T := CircuitTypes) x') c))
  /\
  denotes (snd (runState (function_signature.hash (T := CircuitTypes) x') c))
          (fst (runState (function_signature.hash (T := CircuitTypes) x') c))
          (unIdent (function_signature.hash (T := NativeTypes) x)).
Proof.
  intros H. exact (@compress_agrees _ agrees c _ _ FUNCTION_SIGNATURE H).
Qed.

(** [FunctionSignature] meets the contract asked of a sub-structure. *)
Lemma FunctionSignature_Sound :
  abi.Sound native.FunctionSignature_Structure.
Proof.
  split.
  - intros x c. apply FunctionSignature_conversion.
  - intros x c c' He. cbn zeta.
    apply (FunctionSignature_hash_agrees x).
    eapply Forall2_denotes_extends; [exact He|].
    apply FunctionSignature_conversion.
Qed.

Section SubStructures.
Context {S : NCT -> Type} {str : abi.Structure S}.
Context (sound : abi.Sound str).

Lemma converted_extends (c c' : Composer) (x : S NativeTypes)
      (x' : S CircuitTypes) :
  extends c c' -> abi.converted c x x' -> abi.converted c' x x'.
Proof.
  intros He (c0 & -> & H). exists c0. eauto using extends_trans.
Qed.

(** [map(arr, to_circuit_type)]: every element is converted, in order, and
    the composer only grows. *)
Lemma map_to_circuit_type_spec (xs : list (S NativeTypes)) (c : Composer) :
  extends c (snd (runState (map_array abi.to_circuit_type xs) c)) /\
  Forall2 (abi.converted
             (snd (runState (map_array abi.to_circuit_type xs) c)))
          xs (fst (runState (map_array abi.to_circuit_type xs) c)).
Proof.
  revert c. induction xs as [|x rest IH]; intros c.
  - split; [apply extends_refl | constructor].
  - cbn [map_array]. rewrite !run_bind, run_ret. cbn [fst snd].
    pose proof (@abi.conversion_extends _ _ _ sound x c) as E1.
    destruct (IH (snd (runState (abi.to_circuit_type x) c))) as [E2 D2].
    split; [eauto using extends_trans|].
    constructor; [|exact D2].
    exists c. split; [reflexivity | exact E2].
Qed.

(** [map(arr, to_hashes)] on converted elements: the wires carry the native
    hashes, in order. *)
Lemma map_hash_spec (xs : list (S NativeTypes)) (xs' : list (S CircuitTypes))
      (c : Composer) :
  Forall2 (abi.converted c) xs xs' ->
  extends c (snd (runState (map_array (abi.hash (T := CircuitTypes)) xs') c))
  /\
  Forall2
    (denotes (snd (runState (map_array (abi.hash (T := CircuitTypes)) xs') c)))
    (fst (runState (map_array (abi.hash (T := CircuitTypes)) xs') c))
    (map (fun e => unIdent (abi.hash (T := NativeTypes) e)) xs).
Proof.
  intros H. revert xs c H.
  induction xs' as [|x' rest' IH]; intros xs c H;
    inversion H as [|x ? rest ? Hx Hr]; subst.
  - split; [apply extends_refl | constructor].
  - cbn [map_array map].
    change (@bind (@effect CircuitTypes) (@effect_monad CircuitTypes))
      with (@bind (state Composer) (Monad_state Composer)).
    change (@ret (@effect CircuitTypes) (@effect_monad CircuitTypes))
      with (@ret (state Composer) (Monad_state Composer)).
    rewrite !run_bind, run_ret. cbn [fst snd].
    destruct Hx as (c0 & -> & He).
    destruct (@abi.hash_agrees _ _ _ sound x c0 c He) as [E1 D1].
    cbn zeta in E1, D1.
    set (x' := fst (runState (abi.to_circuit_type x) c0)) in *.
    set (c1 := snd (runState (abi.hash (T := CircuitTypes) x') c)) in *.
    assert (Hr' : Forall2 (abi.converted c1) rest rest').
    { clear - Hr E1. induction Hr; constructor;
        eauto using converted_extends. }
    destruct (IH rest c1 Hr') as [E2 D2].
    split; [eauto using extends_trans|].
    constructor; [eauto using denotes_extends | exact D2].
Qed.
End SubStructures.
Section PublicInputs.
Import public_circuit_public_inputs.
Context {CallContext StateTransition StateRead : NCT -> Type}.
Context {str_CallContext : abi.Structure CallContext}.
Context {str_StateTransition : abi.Structure StateTransition}.
Context {str_StateRead : abi.Structure StateRead}.
Context (sound_StateTransition : abi.Sound str_StateTransition).
Context (sound_StateRead : abi.Sound str_StateRead).
#[local] Abbreviation NPIS' :=
  (PublicCircuitPublicInputs CallContext StateTransition StateRead
                             NativeTypes).
#[local] Abbreviation CPIS :=
  (PublicCircuitPublicInputs CallContext StateTransition StateRead
                             CircuitTypes).

Lemma Forall2_converted_extends {S : NCT -> Type} {str : abi.Structure S}
      (c c' : Composer) (xs : list (S NativeTypes))
      (xs' : list (S CircuitTypes)) :
  extends c c' ->
  Forall2 (abi.converted c) xs xs' -> Forall2 (abi.converted c') xs xs'.
Proof.
  intros He H. induction H; constructor; eauto using converted_extends.
Qed.

(** The converted structure stands for the native one. *)
Lemma to_circuit_type_represented (x : NPIS') (c : Composer) :
  represented (snd (runState (to_circuit_type_body x) c)) x
              (fst (runState (to_circuit_type_body x) c)).
Proof.
  unfold to_circuit_type_body. rewrite !run_bind, run_ret. cbn [fst snd].
  set (c0 := snd (runState (abi.to_circuit_type (call_context x)) c)).
  destruct (to_ct_array_spec (custom_inputs x) c0) as [E1 D1].
  set (c1 := snd (runState (to_ct_array (custom_inputs x)) c0)) in *.
  destruct (to_ct_array_spec (custom_outputs x) c1) as [E2 D2].
  set (c2 := snd (runState (to_ct_array (custom_outputs x)) c1)) in *.
  destruct (to_ct_array_spec (emitted_events x) c2) as [E3 D3].
  set (c3 := snd (runState (to_ct_array (emitted_events x)) c2)) in *.
  destruct (map_to_circuit_type_spec sound_StateTransition
              (state_transitions x) c3) as [E4 D4].
  set (c4 := snd (runState (map_array abi.to_circuit_type
                                      (state_transitions x)) c3)) in *.
  destruct (map_to_circuit_type_spec sound_StateRead (state_reads x) c4)
    as [E5 D5].
  set (c5 := snd (runState (map_array abi.to_circuit_type (state_reads x))
                           c4)) in *.
  destruct (to_ct_array_spec (public_call_stack x) c5) as [E6 D6].
  set (c6 := snd (runState (to_ct_array (public_call_stack x)) c5)) in *.
  destruct (to_ct_array_spec (contract_deployment_call_stack x) c6)
    as [E7 D7].
  set (c7 := snd (runState (to_ct_array (contract_deployment_call_stack x))
                           c6)) in *.
  destruct (to_ct_array_spec (partial_l1_call_stack x) c7) as [E8 D8].
  set (c8 := snd (runState (to_ct_array (partial_l1_call_stack x)) c7)) in *.
  destruct (to_ct_fr_spec (old_private_data_tree_root x) c8) as [E9 D9].
  set (c9 := snd (runState (to_ct_fr (old_private_data_tree_root x)) c8))
    in *.
  destruct (to_ct_fr_spec (prover_address x) c9) as [E10 _].
  set (c10 := snd (runState (to_ct_fr (prover_address x)) c9)) in *.
  assert (X9 : extends c9 c10) by exact E10.
  assert (X8 : extends c8 c10) by eauto using extends_trans.
  assert (X7 : extends c7 c10) by eauto using extends_trans.
  assert (X6 : extends c6 c10) by eauto using extends_trans.
  assert (X5 : extends c5 c10) by eauto using extends_trans.
  assert (X4 : extends c4 c10) by eauto using extends_trans.
  assert (X3 : extends c3 c10) by eauto using extends_trans.
  assert (X2 : extends c2 c10) by eauto using extends_trans.
  assert (X1 : extends c1 c10) by eauto using extends_trans.
  unfold represented. members.
  repeat split;
    eauto using Forall2_denotes_extends, Forall2_converted_extends,
                denotes_extends.
Qed.

Lemma represented_extends (c c' : Composer) (x : NPIS') (x' : CPIS) :
  extends c c' -> represented c x x' -> represented c' x x'.
Proof.
  intros He (H1 & H2 & H3 & H4 & H5 & H6 & H7 & H8 & H9).
  unfold represented.
  repeat split;
    eauto using Forall2_denotes_extends, Forall2_converted_extends,
                denotes_extends.
Qed.

(** The wires [hash()] gathers in circuit form carry the scalars it
    gathers in native form. *)
Lemma hash_inputs_agree (c : Composer) (x : NPIS') (x' : CPIS) :
  represented c x x' ->
  extends c (snd (runState (hash_inputs (T := CircuitTypes) x') c)) /\
  Forall2 (denotes (snd (runState (hash_inputs (T := CircuitTypes) x') c)))
          (fst (runState (hash_inputs (T := CircuitTypes) x') c))
          (unIdent (hash_inputs (T := NativeTypes) x)).
Proof.
  intros (H1 & H2 & H3 & H4 & H5 & H6 & H7 & H8 & H9).
  rewrite native_hash_inputs. unfold hash_inputs, hashed_members.
  change (@bind (@effect CircuitTypes) (@effect_monad CircuitTypes))
    with (@bind (state Composer) (Monad_state Composer)).
  change (@ret (@effect CircuitTypes) (@effect_monad CircuitTypes))
    with (@ret (state Composer) (Monad_state Composer)).
  rewrite !run_bind, run_ret. cbn [fst snd].
  destruct (map_hash_spec sound_StateTransition _ _ c H4) as [E1 D1].
  set (c1 := snd (runState (map_array (abi.hash (T := CircuitTypes))
                                      (state_transitions x')) c)) in *.
  assert (H5' : Forall2 (abi.converted c1) (state_reads x) (state_reads x'))
    by eauto using Forall2_converted_extends.
  destruct (map_hash_spec sound_StateRead _ _ c1 H5') as [E2 D2].
  set (c2 := snd (runState (map_array (abi.hash (T := CircuitTypes))
                                      (state_reads x')) c1)) in *.
  assert (X : extends c c2) by eauto using extends_trans.
  split; [exact X|].
  unfold spread_arr_into_vec. cbn [app]. rewrite <- !app_assoc.
  repeat apply Forall2_app;
    eauto using Forall2_denotes_extends, denotes_extends.
Qed.

(** C1. Conversion soundness.  Take any native structure, convert it, and
    hash the result in circuit form: the wires handed to the in-circuit
    [compress] carry exactly the scalars handed to the native one, the
    generator index is the same, and so the wire that comes out carries the
    native hash, for [FunctionSignature] and for
    [PublicCircuitPublicInputs]. *)
Theorem conversion_soundness :
  (forall (x : function_signature.FunctionSignature NativeTypes)
          (c : Composer),
      let x' := fst (runState (function_signature.to_circuit_type_body x) c)
      in
      let c1 := snd (runState (function_signature.to_circuit_type_body x) c)
      in
      Forall2 (denotes c1)
              (function_signature.hash_inputs (T := CircuitTypes) x')
              (function_signature.hash_inputs (T := NativeTypes) x) /\
      function_signature.hash (T := CircuitTypes) x'
      = stdlib_pedersen_compress
          (function_signature.hash_inputs (T := CircuitTypes) x')
          FUNCTION_SIGNATURE /\
      unIdent (function_signature.hash (T := NativeTypes) x)
      = compress_native (function_signature.hash_inputs (T := NativeTypes) x)
                        FUNCTION_SIGNATURE /\
      denotes
        (snd (runState (function_signature.hash (T := CircuitTypes) x') c1))
        (fst (runState (function_signature.hash (T := CircuitTypes) x') c1))
        (unIdent (function_signature.hash (T := NativeTypes) x))) /\
  (forall (x : NPIS') (c : Composer),
      let x' := fst (runState (to_circuit_type_body x) c) in
      let c1 := snd (runState (to_circuit_type_body x) c) in
      Forall2
        (denotes (snd (runState (hash_inputs (T := CircuitTypes) x') c1)))
        (fst (runState (hash_inputs (T := CircuitTypes) x') c1))
        (unIdent (hash_inputs (T := NativeTypes) x)) /\
      hash (T := CircuitTypes) x'
      = bind (hash_inputs (T := CircuitTypes) x')
             (fun inputs =>
                stdlib_pedersen_compress inputs
                                         PRIVATE_CIRCUIT_PUBLIC_INPUTS) /\
      unIdent (hash (T := NativeTypes) x)
      = compress_native (unIdent (hash_inputs (T := NativeTypes) x))
                        PRIVATE_CIRCUIT_PUBLIC_INPUTS /\
      denotes (snd (runState (hash (T := CircuitTypes) x') c1))
              (fst (runState (hash (T := CircuitTypes) x') c1))
              (unIdent (hash (T := NativeTypes) x))).
Proof.
  split.
  - intros x c x' c1.
    destruct (FunctionSignature_conversion x c) as [_ D].
    split; [exact D|]. split; [reflexivity|]. split; [reflexivity|].
    apply (FunctionSignature_hash_agrees x x' c1 D).
  - intros x c x' c1.
    pose proof (to_circuit_type_represented x c) as R.
    destruct (hash_inputs_agree c1 x x' R) as [E D].
    split; [exact D|]. split; [reflexivity|]. split; [reflexivity|].
    unfold hash.
    change (@bind (@effect CircuitTypes) (@effect_monad CircuitTypes))
      with (@bind (state Composer) (Monad_state Composer)).
    rewrite run_bind.
    exact (proj2 (@compress_agrees _ agrees _ _ _
                    PRIVATE_CIRCUIT_PUBLIC_INPUTS D)).
Qed.
End PublicInputs.
End ConversionSoundness.

(** ** The sample compression agrees with itself in circuit form *)

Lemma values_of_wires (c : Composer) (ws : list field_t) (vs : list Z) :
  Forall2 (denotes c) ws vs ->
  map (fun w => nth (witness_index w) (variables c) 0) ws = vs.
Proof.
  intros H. induction H as [|w v ws vs Hw _ IH]; [reflexivity|].
  cbn [map]. rewrite IH. f_equal.
  unfold denotes, get_variable in Hw. now apply nth_error_nth.
Qed.

Lemma witnessed_compress_agrees (f : list Z -> GeneratorIndex -> Z) :
  CompressionAgrees
    {| compress_native := f;
       stdlib_pedersen_compress := sample.witnessed_compress f |}.
Proof.
  split. intros c ws vs g H.
  cbn [stdlib_pedersen_compress compress_native].
  unfold sample.witnessed_compress. cbn [runState].
  rewrite (values_of_wires c ws vs H). apply to_ct_fr_spec.
Qed.

Lemma sample_primitive_agrees : CompressionAgrees sample.primitive.
Proof. exact (witnessed_compress_agrees sample.toy_compress). Qed.

(** On the sample data: [pis0] is converted in an empty composer and hashed
    there; the output wire carries the native hash of [pis0]. *)
Lemma conversion_soundness_witness :
  CompressionAgrees sample.primitive /\
  abi.Sound (native.FunctionSignature_Structure (P := sample.primitive)) /\
  let x' :=
    fst (runState
           (public_circuit_public_inputs.to_circuit_type_body
              (P := sample.primitive)
              (str_CallContext := native.FunctionSignature_Structure)
              (str_StateTransition := native.FunctionSignature_Structure)
              (str_StateRead := native.FunctionSignature_Structure)
              sample.pis0)
           empty_composer) in
  let c1 :=
    snd (runState
           (public_circuit_public_inputs.to_circuit_type_body
              (P := sample.primitive)
              (str_CallContext := native.FunctionSignature_Structure)
              (str_StateTransition := native.FunctionSignature_Structure)
              (str_StateRead := native.FunctionSignature_Structure)
              sample.pis0)
           empty_composer) in
  denotes
    (snd (runState
            (public_circuit_public_inputs.hash
               (P := sample.primitive)
               (str_StateTransition := native.FunctionSignature_Structure)
               (str_StateRead := native.FunctionSignature_Structure)
               (T := CircuitTypes (P := sample.primitive)) x') c1))
    (fst (runState
            (public_circuit_public_inputs.hash
               (P := sample.primitive)
               (str_StateTransition := native.FunctionSignature_Structure)
               (str_StateRead := native.FunctionSignature_Structure)
               (T := CircuitTypes (P := sample.primitive)) x') c1))
    (sample.hash_pis sample.pis0).
Proof.
  split; [exact sample_primitive_agrees|].
  split; [exact (FunctionSignature_Sound sample_primitive_agrees)|].
  exact (proj2 (proj2 (proj2 (proj2 (conversion_soundness
                         sample_primitive_agrees
                         (str_CallContext :=
                            native.FunctionSignature_Structure)
                         (FunctionSignature_Sound sample_primitive_agrees)
                         (FunctionSignature_Sound sample_primitive_agrees))
                      sample.pis0 empty_composer)))).
Defined.

(* ===================================================================== *)
(** * Part III: further properties of the two headers *)
(* ===================================================================== *)

(** ** Decoding, then encoding *)

Lemma byte_of_Z_of_byte (acc : Z) (b : byte) :
  byte_of_Z (acc * 256 + Z_of_byte b) = b.
Proof.
  unfold byte_of_Z. pose proof (Z_of_byte_range b) as Hb.
  rewrite Z.add_comm, Z.mod_add, Z.mod_small by lia.
  unfold Z_of_byte. rewrite N2Z.id, Byte.of_to_N. reflexivity.
Qed.

Lemma be_decode_bounds (bs : list byte) (acc : Z) :
  0 <= acc ->
  acc * 256 ^ Z.of_nat (length bs) <= be_decode bs acc
  < (acc + 1) * 256 ^ Z.of_nat (length bs).
Proof.
  revert acc. induction bs as [|b rest IH]; intros acc Hacc.
  - cbn. lia.
  - cbn [be_decode length]. pose proof (Z_of_byte_range b) as Hb.
    rewrite Nat2Z.inj_succ, Z.pow_succ_r by lia.
    assert (Hp : 0 < 256 ^ Z.of_nat (length rest))
      by (apply Z.pow_pos_nonneg; lia).
    specialize (IH (acc * 256 + Z_of_byte b) ltac:(lia)). nia.
Qed.

Lemma be_encode_decode (bs : list byte) (acc : Z) :
  0 <= acc -> be_encode (length bs) (be_decode bs acc) = bs.
Proof.
  revert acc. induction bs as [|b rest IH]; intros acc Hacc; [reflexivity|].
  cbn [length be_encode be_decode]. pose proof (Z_of_byte_range b) as Hb.
  rewrite IH by lia. f_equal.
  pose proof (be_decode_bounds rest (acc * 256 + Z_of_byte b) ltac:(lia))
    as Hv.
  assert (Hp : 0 < 256 ^ Z.of_nat (length rest))
    by (apply Z.pow_pos_nonneg; lia).
  replace (be_decode rest (acc * 256 + Z_of_byte b)
           / 256 ^ Z.of_nat (length rest))
    with (acc * 256 + Z_of_byte b).
  - apply byte_of_Z_of_byte.
  - apply Z.div_unique with
      (r := be_decode rest (acc * 256 + Z_of_byte b)
            - (acc * 256 + Z_of_byte b) * 256 ^ Z.of_nat (length rest));
      lia.
Qed.

(** ** [FunctionSignature]: more on [read] and [write] *)

(** X2. Decoding then encoding: when the two boolean bytes at the cursor
    are 0 or 1, [write] of what [read] returned appends the very six bytes
    [read] consumed. *)
Theorem FunctionSignature_read_then_write {P : CompressionPrimitive}
        (mem : Memory) (it : Z) (buf : list byte)
        (dst x : function_signature.FunctionSignature NativeTypes)
        (it' : Z) :
  serialize.read (Serialize := native.ser_FunctionSignature) mem it dst
  = Done x it' ->
  (mem (it + 4) = Some x00 \/ mem (it + 4) = Some x01) ->
  (mem (it + 4 + 1) = Some x00 \/ mem (it + 4 + 1) = Some x01) ->
  exists bs,
    load mem it 6 = Some bs /\
    serialize.write (Serialize := native.ser_FunctionSignature) buf x
    = buf ++ bs.
Proof.
  rewrite native_FunctionSignature_read, load_six. intros H Hp Hc.
  destruct (load mem it 4) as [bs|] eqn:E4; [|discriminate H].
  destruct (mem (it + 4)) as [p|]; [|discriminate H].
  destruct (mem (it + 4 + 1)) as [c|]; [|discriminate H].
  injection H as <- _. eexists. split; [reflexivity|].
  cbn [serialize.write native.ser_FunctionSignature
       function_signature.Serialize_FunctionSignature].
  unfold function_signature.write.
  cbn [native.fs function_signature.vk_index function_signature.is_private
       function_signature.is_constructor serialize.write native.ser_uint32
       native.ser_boolean serialize.uint32_t serialize.bool_t].
  rewrite <- !app_assoc. do 2 f_equal.
  - rewrite <- (length_load mem it 4 bs E4) at 1.
    apply be_encode_decode. lia.
  - assert (Ep : p = x00 \/ p = x01)
      by (destruct Hp as [Hp|Hp]; injection Hp as ->; auto).
    assert (Ec : c = x00 \/ c = x01)
      by (destruct Hc as [Hc|Hc]; injection Hc as ->; auto).
    destruct Ep as [-> | ->], Ec as [-> | ->]; reflexivity.
Qed.

Lemma FunctionSignature_read_then_write_witness :
  serialize.read
    (Serialize := native.ser_FunctionSignature (P := sample.primitive))
    (memory_of 0 [x00; x00; x00; x07; x01; x00]) 0 (native.fs 9 true true)
  = Done (native.fs 7 true false) 6 /\
  exists bs,
    load (memory_of 0 [x00; x00; x00; x07; x01; x00]) 0 6 = Some bs /\
    serialize.write
      (Serialize := native.ser_FunctionSignature (P := sample.primitive))
      [xff] (native.fs 7 true false)
    = [xff] ++ bs.
Proof.
  split; [reflexivity|].
  apply (FunctionSignature_read_then_write
           (P := sample.primitive)
           (memory_of 0 [x00; x00; x00; x07; x01; x00]) 0 [xff]
           (native.fs 9 true true) (native.fs 7 true false) 6).
  - reflexivity.
  - right. reflexivity.
  - left. reflexivity.
Defined.

(** X3. [read] looks at the six bytes at the cursor and at nothing else:
    two memories that agree there give the same structure and cursor,
    whatever the two destinations held. *)
Theorem FunctionSignature_read_is_local {P : CompressionPrimitive}
        (mem mem' : Memory) (it : Z)
        (dst dst' : function_signature.FunctionSignature NativeTypes) :
  load mem it 6 = load mem' it 6 ->
  serialize.read (Serialize := native.ser_FunctionSignature) mem it dst
  = serialize.read (Serialize := native.ser_FunctionSignature) mem' it dst'.
Proof.
  intros H. rewrite !native_FunctionSignature_read.
  rewrite !load_six in H.
  destruct (load mem it 4) as [bs|] eqn:E4,
           (load mem' it 4) as [bs'|] eqn:E4';
    destruct (mem (it + 4)) as [p|], (mem' (it + 4)) as [p'|];
    destruct (mem (it + 4 + 1)) as [c|], (mem' (it + 4 + 1)) as [c'|];
    try discriminate H; try reflexivity.
  injection H as H. apply length_load in E4, E4'.
  apply app_same_length in H; [|congruence].
  destruct H as [-> H]. injection H as -> ->. reflexivity.
Qed.

Lemma FunctionSignature_read_is_local_witness :
  load (memory_of 0 [x00; x00; x00; x07; x01; x00]) 0 6
  = load (memory_of 0 [x00; x00; x00; x07; x01; x00; xff; xff]) 0 6 /\
  serialize.read
    (Serialize := native.ser_FunctionSignature (P := sample.primitive))
    (memory_of 0 [x00; x00; x00; x07; x01; x00]) 0 (native.fs 0 false false)
  = serialize.read
      (Serialize := native.ser_FunctionSignature (P := sample.primitive))
      (memory_of 0 [x00; x00; x00; x07; x01; x00; xff; xff]) 0
      (native.fs 9 true true).
Proof.
  split; [reflexivity|].
  apply (FunctionSignature_read_is_local (P := sample.primitive)).
  reflexivity.
Defined.

(** X4. Two structures written one after the other are read back one after
    the other: the cursor [read] leaves after the first is where the second
    starts. *)
Theorem FunctionSignature_back_to_back {P : CompressionPrimitive}
        (mem : Memory) (it : Z)
        (x y d1 d2 : function_signature.FunctionSignature NativeTypes) :
  function_signature.valid x -> function_signature.valid y ->
  holds mem it
        (serialize.write (Serialize := native.ser_FunctionSignature)
           (serialize.write (Serialize := native.ser_FunctionSignature) [] x)
           y) ->
  serialize.read (Serialize := native.ser_FunctionSignature) mem it d1
  = Done x (it + 6) /\
  serialize.read (Serialize := native.ser_FunctionSignature) mem (it + 6) d2
  = Done y (it + 6 + 6).
Proof.
  intros Hx Hy H.
  rewrite (serialize.write_appends (Laws := native_FunctionSignature_laws))
    in H.
  apply holds_app in H as [H1 H2].
  rewrite (serialize.write_size (Laws := native_FunctionSignature_laws) x Hx)
    in H2.
  split; now apply FunctionSignature_round_trip.
Qed.

Lemma FunctionSignature_back_to_back_witness :
  function_signature.valid (native.fs (P := sample.primitive) 7 true false) /\
  function_signature.valid (native.fs (P := sample.primitive) 8 false true) /\
  serialize.read
    (Serialize := native.ser_FunctionSignature (P := sample.primitive))
    (memory_of 0 [x00; x00; x00; x07; x01; x00; x00; x00; x00; x08; x00; x01])
    (0 + 6) (native.fs 0 false false)
  = Done (native.fs 8 false true) (0 + 6 + 6).
Proof.
  assert (Hx : function_signature.valid
                 (native.fs (P := sample.primitive) 7 true false))
    by solve_valid.
  assert (Hy : function_signature.valid
                 (native.fs (P := sample.primitive) 8 false true))
    by solve_valid.
  split; [exact Hx|]. split; [exact Hy|].
  refine (proj2 (FunctionSignature_back_to_back
                   (P := sample.primitive) _ 0
                   (native.fs 7 true false) (native.fs 8 false true)
                   (native.fs 0 false false) (native.fs 0 false false)
                   Hx Hy _)).
  reflexivity.
Defined.

(** X5. [write] is injective on the structures of the type: two structures
    that append the same bytes to a buffer are equal. *)
Theorem FunctionSignature_write_injective {P : CompressionPrimitive}
        (buf : list byte)
        (x y : function_signature.FunctionSignature NativeTypes) :
  function_signature.valid x -> function_signature.valid y ->
  serialize.write (Serialize := native.ser_FunctionSignature) buf x
  = serialize.write (Serialize := native.ser_FunctionSignature) buf y ->
  x = y.
Proof.
  intros Hx Hy H.
  rewrite (serialize.write_appends (Laws := native_FunctionSignature_laws)
             buf x),
          (serialize.write_appends (Laws := native_FunctionSignature_laws)
             buf y) in H.
  apply app_inv_head in H.
  pose proof (holds_memory_of 0
                (serialize.write (Serialize := native.ser_FunctionSignature)
                                 [] x)) as Hm.
  pose proof (FunctionSignature_round_trip _ 0 x x Hx Hm) as Rx.
  rewrite H in Hm.
  pose proof (FunctionSignature_round_trip _ 0 x y Hy Hm) as Ry.
  rewrite H in Rx. congruence.
Qed.

Lemma FunctionSignature_write_injective_witness :
  function_signature.valid (native.fs (P := sample.primitive) 7 true false) /\
  serialize.write
    (Serialize := native.ser_FunctionSignature (P := sample.primitive))
    [xff] (native.fs 7 true false)
  = serialize.write
      (Serialize := native.ser_FunctionSignature (P := sample.primitive))
      [xff] (native.fs (3 + 4) (negb false) false) /\
  native.fs (P := sample.primitive) 7 true false
  = native.fs (3 + 4) (negb false) false.
Proof.
  assert (Hx : function_signature.valid
                 (native.fs (P := sample.primitive) 7 true false))
    by solve_valid.
  split; [exact Hx|]. split; [reflexivity|].
  apply (FunctionSignature_write_injective
           (P := sample.primitive) [xff] _ _ Hx Hx).
  reflexivity.
Defined.

(** ** [FunctionSignature]: conversion, public inputs, flattening *)
Lemma conversion_allocation {P : CompressionPrimitive}
        (x : function_signature.FunctionSignature NativeTypes)
        (c : Composer) :
  variables (snd (runState (function_signature.to_circuit_type_body x) c))
  = variables c
    ++ [ function_signature.vk_index x;
         if function_signature.is_private x then 1 else 0;
         if function_signature.is_constructor x then 1 else 0 ] /\
  public_inputs (snd (runState (function_signature.to_circuit_type_body x) c))
  = public_inputs c /\
  fst (runState (function_signature.to_circuit_type_body x) c)
  = {| function_signature.vk_index :=
         {| uint_witness_index := length (variables c) |}
         : @uint32 CircuitTypes;
       function_signature.is_private :=
         {| bool_witness_index := length (variables c) + 1 |}
         : @boolean CircuitTypes;
       function_signature.is_constructor :=
         {| bool_witness_index := length (variables c) + 2 |}
         : @boolean CircuitTypes |}.
Proof.
  unfold function_signature.to_circuit_type_body.
  rewrite !run_bind, run_ret. cbn [fst snd].
  unfold to_ct_uint32, to_ct_bool. rewrite !run_bind, !run_ret.
  cbn [fst snd add_variable runState variables public_inputs].
  split; [now rewrite <- !app_assoc|]. split; [reflexivity|].
  rewrite !length_app. cbn [length].
  replace (length (variables c) + 1 + 1)%nat
    with (length (variables c) + 2)%nat by lia.
  reflexivity.
Qed.

(** X9. [to_circuit_type] allocates exactly one witness per member, in
    member order, after the witnesses the composer already had; the
    converted members are those three fresh wires; no public input is
    added. *)
Theorem FunctionSignature_conversion_allocates {P : CompressionPrimitive}
        (x : function_signature.FunctionSignature NativeTypes)
        (c : Composer) :
  variables (snd (runState (function_signature.to_circuit_type_body x) c))
  = variables c
    ++ [ function_signature.vk_index x;
         if function_signature.is_private x then 1 else 0;
         if function_signature.is_constructor x then 1 else 0 ] /\
  public_inputs (snd (runState (function_signature.to_circuit_type_body x) c))
  = public_inputs c /\
  fst (runState (function_signature.to_circuit_type_body x) c)
  = {| function_signature.vk_index :=
         {| uint_witness_index := length (variables c) |}
         : @uint32 CircuitTypes;
       function_signature.is_private :=
         {| bool_witness_index := length (variables c) + 1 |}
         : @boolean CircuitTypes;
       function_signature.is_constructor :=
         {| bool_witness_index := length (variables c) + 2 |}
         : @boolean CircuitTypes |}.
Proof.
  unfold function_signature.to_circuit_type_body.
  rewrite !run_bind, run_ret. cbn [fst snd].
  unfold to_ct_uint32, to_ct_bool. rewrite !run_bind, !run_ret.
  cbn [fst snd add_variable runState variables public_inputs].
  split; [now rewrite <- !app_assoc|]. split; [reflexivity|].
  rewrite !length_app. cbn [length].
  replace (length (variables c) + 1 + 1)%nat
    with (length (variables c) + 2)%nat by lia.
  reflexivity.
Qed.

(** X10. [set_public] on a freshly converted structure: no witness is
    added, the public inputs grow by exactly the three fresh wires, in
    member order, and these carry [vk_index], [is_private] and
    [is_constructor] of the native structure. *)
Theorem FunctionSignature_set_public_after_conversion
        {P : CompressionPrimitive}
        (x : function_signature.FunctionSignature NativeTypes)
        (c : Composer) :
  variables
    (snd (runState
            (function_signature.set_public_body
               (fst (runState (function_signature.to_circuit_type_body x) c)))
            (snd (runState (function_signature.to_circuit_type_body x) c))))
  = variables (snd (runState (function_signature.to_circuit_type_body x) c))
  /\
  public_inputs
    (snd (runState
            (function_signature.set_public_body
               (fst (runState (function_signature.to_circuit_type_body x) c)))
            (snd (runState (function_signature.to_circuit_type_body x) c))))
  = public_inputs c
    ++ [ length (variables c); (length (variables c) + 1)%nat;
         (length (variables c) + 2)%nat ] /\
  map (get_variable
         (snd (runState
                 (function_signature.set_public_body
                    (fst (runState
                            (function_signature.to_circuit_type_body x) c)))
                 (snd (runState
                         (function_signature.to_circuit_type_body x) c)))))
      [ length (variables c); (length (variables c) + 1)%nat;
        (length (variables c) + 2)%nat ]
  = [ Some (function_signature.vk_index x);
      Some (if function_signature.is_private x then 1 else 0);
      Some (if function_signature.is_constructor x then 1 else 0) ].
Proof.
  destruct (conversion_allocation x c) as (Hv & Hp & Hx).
  rewrite Hx. unfold function_signature.set_public_body.
  rewrite !run_bind.
  cbn [fst snd set_public_input runState variables public_inputs
       function_signature.vk_index function_signature.is_private
       function_signature.is_constructor field_of_uint field_of_bool
       witness_index uint_witness_index bool_witness_index].
  split; [reflexivity|]. rewrite Hp. split; [now rewrite <- !app_assoc|].
  unfold get_variable. cbn [variables map]. rewrite Hv.
  rewrite !nth_error_app2 by lia.
  replace (length (variables c) - length (variables c))%nat with 0%nat by lia.
  replace (length (variables c) + 1 - length (variables c))%nat with 1%nat
    by lia.
  replace (length (variables c) + 2 - length (variables c))%nat with 2%nat
    by lia.
  reflexivity.
Qed.

Lemma FunctionSignature_hash_inputs_injective {P : CompressionPrimitive}
      (a b : function_signature.FunctionSignature NativeTypes) :
  function_signature.hash_inputs (T := NativeTypes) a
  = function_signature.hash_inputs (T := NativeTypes) b ->
  a = b.
Proof.
  destruct a as [v p c], b as [v' p' c'].
  unfold function_signature.hash_inputs.
  cbn [function_signature.vk_index function_signature.is_private
       function_signature.is_constructor fr_of_uint32 fr_of_boolean
       NativeTypes].
  intros H. injection H as Hv Hp Hc. subst v'.
  assert (p = p') by (destruct p, p'; congruence || discriminate).
  assert (c = c') by (destruct c, c'; congruence || discriminate).
  now subst.
Qed.

(** X11. The sequence [hash()] hands to [compress] loses nothing of a
    [FunctionSignature]: two different structures give two different
    sequences, so only a collision of [compress] can make their hashes
    equal. *)
Theorem FunctionSignature_hash_inputs_differ {P : CompressionPrimitive}
        (a b : function_signature.FunctionSignature NativeTypes) :
  a <> b ->
  function_signature.hash_inputs (T := NativeTypes) a
  <> function_signature.hash_inputs (T := NativeTypes) b /\
  (unIdent (function_signature.hash (T := NativeTypes) a)
   = unIdent (function_signature.hash (T := NativeTypes) b) ->
   exists l l',
     l <> l' /\
     compress_native l FUNCTION_SIGNATURE
     = compress_native l' FUNCTION_SIGNATURE).
Proof.
  intros Hab.
  assert (Hd : function_signature.hash_inputs (T := NativeTypes) a
               <> function_signature.hash_inputs (T := NativeTypes) b)
    by (intros H; apply Hab; now apply FunctionSignature_hash_inputs_injective).
  split; [exact Hd|].
  intros H. exists (function_signature.hash_inputs (T := NativeTypes) a),
                   (function_signature.hash_inputs (T := NativeTypes) b).
  split; [exact Hd | exact H].
Qed.

(** The two signatures of the spec's scenario, 7 and 8. *)
Lemma FunctionSignature_hash_inputs_differ_witness :
  native.fs (P := sample.primitive) 7 true false <> native.fs 8 true false /\
  function_signature.hash_inputs
    (T := NativeTypes (P := sample.primitive)) (native.fs 7 true false)
  <> function_signature.hash_inputs
       (T := NativeTypes (P := sample.primitive)) (native.fs 8 true false).
Proof.
  assert (H : native.fs (P := sample.primitive) 7 true false
              <> native.fs 8 true false) by discriminate.
  split; [exact H|].
  exact (proj1 (FunctionSignature_hash_inputs_differ
                  (P := sample.primitive) _ _ H)).
Defined.

(** ** [PublicCircuitPublicInputs]: conversion and hashing, shapes *)

Lemma map_array_length {A B : Type} (f : A -> state Composer B)
      (xs : list A) (c : Composer) :
  length (fst (runState (map_array f xs) c)) = length xs.
Proof.
  revert c. induction xs as [|x rest IH]; intros c; [reflexivity|].
  cbn [map_array]. rewrite !run_bind, run_ret. cbn [fst length].
  now rewrite IH.
Qed.

Section PublicInputsShapes.
Import public_circuit_public_inputs.
Context {P : CompressionPrimitive}.
Context {CallContext StateTransition StateRead : NCT -> Type}.
Context {str_CallContext : abi.Structure CallContext}.
Context {str_StateTransition : abi.Structure StateTransition}.
Context {str_StateRead : abi.Structure StateRead}.
#[local] Abbreviation NPIS4 :=
  (PublicCircuitPublicInputs CallContext StateTransition StateRead
                             NativeTypes).
#[local] Abbreviation CPIS4 :=
  (PublicCircuitPublicInputs CallContext StateTransition StateRead
                             CircuitTypes).

(** X12. [to_circuit_type] keeps the shape: each of the eight arrays of the
    converted structure has as many elements as the native array it came
    from, whatever the sub-structures' own conversions do. *)
Theorem to_circuit_type_keeps_array_lengths (x : NPIS4) (c : Composer) :
  length (custom_inputs (fst (runState (to_circuit_type_body x) c)))
  = length (custom_inputs x) /\
  length (custom_outputs (fst (runState (to_circuit_type_body x) c)))
  = length (custom_outputs x) /\
  length (emitted_events (fst (runState (to_circuit_type_body x) c)))
  = length (emitted_events x) /\
  length (state_transitions (fst (runState (to_circuit_type_body x) c)))
  = length (state_transitions x) /\
  length (state_reads (fst (runState (to_circuit_type_body x) c)))
  = length (state_reads x) /\
  length (public_call_stack (fst (runState (to_circuit_type_body x) c)))
  = length (public_call_stack x) /\
  length (contract_deployment_call_stack
            (fst (runState (to_circuit_type_body x) c)))
  = length (contract_deployment_call_stack x) /\
  length (partial_l1_call_stack (fst (runState (to_circuit_type_body x) c)))
  = length (partial_l1_call_stack x).
Proof.
  unfold to_circuit_type_body. rewrite !run_bind, run_ret. cbn [fst snd].
  members. unfold to_ct_array.
  repeat split; apply map_array_length.
Qed.

(** X13. The number of scalars [hash()] hands to [compress] is the sum of
    the lengths of the eight arrays, plus one, in native and in circuit
    form alike: one scalar per array element, one per sub-structure, one
    for [old_private_data_tree_root]. *)
Theorem hash_inputs_count :
  (forall x : NPIS4,
      length (unIdent (hash_inputs (T := NativeTypes) x))
      = (length (custom_inputs x) + length (custom_outputs x)
         + length (emitted_events x) + length (state_transitions x)
         + length (state_reads x) + length (public_call_stack x)
         + length (contract_deployment_call_stack x)
         + length (partial_l1_call_stack x) + 1)%nat) /\
  (forall (x' : CPIS4) (c : Composer),
      length (fst (runState (hash_inputs (T := CircuitTypes) x') c))
      = (length (custom_inputs x') + length (custom_outputs x')
         + length (emitted_events x') + length (state_transitions x')
         + length (state_reads x') + length (public_call_stack x')
         + length (contract_deployment_call_stack x')
         + length (partial_l1_call_stack x') + 1)%nat).
Proof.
  split.
  - intros x. rewrite native_hash_inputs. unfold hashed_members.
    rewrite !length_app, !length_map. cbn [length]. lia.
  - intros x' c. unfold hash_inputs, spread_arr_into_vec.
    change (@bind (@effect CircuitTypes) (@effect_monad CircuitTypes))
      with (@bind (state Composer) (Monad_state Composer)).
    change (@ret (@effect CircuitTypes) (@effect_monad CircuitTypes))
      with (@ret (state Composer) (Monad_state Composer)).
    rewrite !run_bind, run_ret. cbn [fst snd app].
    rewrite !length_app, !map_array_length. cbn [length]. lia.
Qed.
End PublicInputsShapes.

(** [map(arr, to_circuit_type)] only adds to the composer when the
    conversion of one element does. *)
Lemma map_to_circuit_type_extends {P : CompressionPrimitive}
      {S : NCT -> Type} {str : abi.Structure S}
      (grows : forall (e : S NativeTypes) (c : Composer),
          extends c (snd (runState (abi.to_circuit_type e) c)))
      (xs : list (S NativeTypes)) (c : Composer) :
  extends c (snd (runState (map_array abi.to_circuit_type xs) c)).
Proof.
  revert c. induction xs as [|x rest IH]; intros c.
  - apply extends_refl.
  - cbn [map_array]. rewrite !run_bind, run_ret. cbn [fst snd].
    eapply extends_trans; [apply grows | apply IH].
Qed.

Section PublicInputsConversionValues.
Import public_circuit_public_inputs.
Context {P : CompressionPrimitive}.
Context {CallContext StateTransition StateRead : NCT -> Type}.
Context {str_CallContext : abi.Structure CallContext}.
Context {str_StateTransition : abi.Structure StateTransition}.
Context {str_StateRead : abi.Structure StateRead}.
#[local] Abbreviation NPIS5 :=
  (PublicCircuitPublicInputs CallContext StateTransition StateRead
                             NativeTypes).

(** X14. [to_circuit_type] witnesses every scalar of the structure, the
    ones [hash()] leaves out included: provided the conversions of a
    [StateTransition] and of a [StateRead] only add to the composer, in the
    composer [to_circuit_type] returns the wires of the six scalar arrays
    carry the native elements in order, and the wires of
    [old_private_data_tree_root] and of [prover_address] carry the native
    values. *)
Theorem to_circuit_type_carries_every_scalar (x : NPIS5) (c : Composer) :
  (forall (e : StateTransition NativeTypes) (c0 : Composer),
      extends c0 (snd (runState (abi.to_circuit_type e) c0))) ->
  (forall (e : StateRead NativeTypes) (c0 : Composer),
      extends c0 (snd (runState (abi.to_circuit_type e) c0))) ->
  Forall2 (denotes (snd (runState (to_circuit_type_body x) c)))
          (custom_inputs (fst (runState (to_circuit_type_body x) c)))
          (custom_inputs x) /\
  Forall2 (denotes (snd (runState (to_circuit_type_body x) c)))
          (custom_outputs (fst (runState (to_circuit_type_body x) c)))
          (custom_outputs x) /\
  Forall2 (denotes (snd (runState (to_circuit_type_body x) c)))
          (emitted_events (fst (runState (to_circuit_type_body x) c)))
          (emitted_events x) /\
  Forall2 (denotes (snd (runState (to_circuit_type_body x) c)))
          (public_call_stack (fst (runState (to_circuit_type_body x) c)))
          (public_call_stack x) /\
  Forall2 (denotes (snd (runState (to_circuit_type_body x) c)))
          (contract_deployment_call_stack
             (fst (runState (to_circuit_type_body x) c)))
          (contract_deployment_call_stack x) /\
  Forall2 (denotes (snd (runState (to_circuit_type_body x) c)))
          (partial_l1_call_stack (fst (runState (to_circuit_type_body x) c)))
          (partial_l1_call_stack x) /\
  denotes (snd (runState (to_circuit_type_body x) c))
          (old_private_data_tree_root
             (fst (runState (to_circuit_type_body x) c)))
          (old_private_data_tree_root x) /\
  denotes (snd (runState (to_circuit_type_body x) c))
          (prover_address (fst (runState (to_circuit_type_body x) c)))
          (prover_address x).
Proof.
  intros grows_StateTransition grows_StateRead.
  unfold to_circuit_type_body. rewrite !run_bind, run_ret. cbn [fst snd].
  set (c0 := snd (runState (abi.to_circuit_type (call_context x)) c)).
  destruct (to_ct_array_spec (custom_inputs x) c0) as [E1 D1].
  set (c1 := snd (runState (to_ct_array (custom_inputs x)) c0)) in *.
  destruct (to_ct_array_spec (custom_outputs x) c1) as [E2 D2].
  set (c2 := snd (runState (to_ct_array (custom_outputs x)) c1)) in *.
  destruct (to_ct_array_spec (emitted_events x) c2) as [E3 D3].
  set (c3 := snd (runState (to_ct_array (emitted_events x)) c2)) in *.
  pose proof (map_to_circuit_type_extends grows_StateTransition
                (state_transitions x) c3) as E4.
  set (c4 := snd (runState (map_array abi.to_circuit_type
                                      (state_transitions x)) c3)) in *.
  pose proof (map_to_circuit_type_extends grows_StateRead
                (state_reads x) c4) as E5.
  set (c5 := snd (runState (map_array abi.to_circuit_type (state_reads x))
                           c4)) in *.
  destruct (to_ct_array_spec (public_call_stack x) c5) as [E6 D6].
  set (c6 := snd (runState (to_ct_array (public_call_stack x)) c5)) in *.
  destruct (to_ct_array_spec (contract_deployment_call_stack x) c6)
    as [E7 D7].
  set (c7 := snd (runState (to_ct_array (contract_deployment_call_stack x))
                           c6)) in *.
  destruct (to_ct_array_spec (partial_l1_call_stack x) c7) as [E8 D8].
  set (c8 := snd (runState (to_ct_array (partial_l1_call_stack x)) c7)) in *.
  destruct (to_ct_fr_spec (old_private_data_tree_root x) c8) as [E9 D9].
  set (c9 := snd (runState (to_ct_fr (old_private_data_tree_root x)) c8))
    in *.
  destruct (to_ct_fr_spec (prover_address x) c9) as [E10 D10].
  set (c10 := snd (runState (to_ct_fr (prover_address x)) c9)) in *.
  assert (X9 : extends c9 c10) by exact E10.
  assert (X8 : extends c8 c10) by eauto using extends_trans.
  assert (X7 : extends c7 c10) by eauto using extends_trans.
  assert (X6 : extends c6 c10) by eauto using extends_trans.
  assert (X5 : extends c5 c10) by eauto using extends_trans.
  assert (X4 : extends c4 c10) by eauto using extends_trans.
  assert (X3 : extends c3 c10) by eauto using extends_trans.
  assert (X2 : extends c2 c10) by eauto using extends_trans.
  assert (X1 : extends c1 c10) by eauto using extends_trans.
  members.
  repeat split; eauto using Forall2_denotes_extends, denotes_extends.
Qed.
End PublicInputsConversionValues.

(** On the sample data, whose sub-structures are [FunctionSignature]s: the
    wire of [prover_address] carries 81. *)
Lemma to_circuit_type_carries_every_scalar_witness :
  (forall (e : function_signature.FunctionSignature
                 (NativeTypes (P := sample.primitive)))
          (c0 : Composer),
      extends c0
        (snd (runState
                (abi.to_circuit_type
                   (Structure := native.FunctionSignature_Structure) e)
                c0))) /\
  denotes
    (snd (runState
            (public_circuit_public_inputs.to_circuit_type_body
               (P := sample.primitive)
               (str_CallContext := native.FunctionSignature_Structure)
               (str_StateTransition := native.FunctionSignature_Structure)
               (str_StateRead := native.FunctionSignature_Structure)
               sample.pis0)
            empty_composer))
    (public_circuit_public_inputs.prover_address
       (fst (runState
               (public_circuit_public_inputs.to_circuit_type_body
                  (P := sample.primitive)
                  (str_CallContext := native.FunctionSignature_Structure)
                  (str_StateTransition := native.FunctionSignature_Structure)
                  (str_StateRead := native.FunctionSignature_Structure)
                  sample.pis0)
               empty_composer)))
    81.
Proof.
  assert (G : forall (e : function_signature.FunctionSignature
                            (NativeTypes (P := sample.primitive)))
                     (c0 : Composer),
             extends c0
               (snd (runState
                       (abi.to_circuit_type
                          (Structure := native.FunctionSignature_Structure) e)
                       c0)))
    by exact (abi.conversion_extends
                (Sound := FunctionSignature_Sound sample_primitive_agrees)).
  split; [exact G|].
  exact (proj2 (proj2 (proj2 (proj2 (proj2 (proj2 (proj2
    (to_circuit_type_carries_every_scalar
       (str_CallContext := native.FunctionSignature_Structure)
       sample.pis0 empty_composer G G)))))))).
Defined.

(** ** [FunctionSignature]: printing *)

Lemma append_assoc (a b c : string) :
  String.append (String.append a b) c = String.append a (String.append b c).
Proof. induction a as [|x a IH]; cbn; [reflexivity | now rewrite IH]. Qed.

Lemma append_inv_head (a s t : string) :
  String.append a s = String.append a t -> s = t.
Proof.
  induction a as [|x a IH]; cbn; intros H; [exact H|].
  injection H as H. auto.
Qed.

Lemma count_newlines_append (s t : string) :
  output.count_newlines (String.append s t)
  = (output.count_newlines s + output.count_newlines t)%nat.
Proof.
  induction s as [|a s IH];
    cbn [output.count_newlines String.append]; [reflexivity|].
  destruct (Ascii.eqb a _); rewrite IH; reflexivity.
Qed.

Lemma digits_have_no_newline (d : Decimal.uint) :
  output.count_newlines (NilEmpty.string_of_uint d) = 0%nat.
Proof. induction d; cbn; auto. Qed.

(** A text without newline, followed by a newline: the first line of a
    text determines both. *)
Lemma first_line_inj (s1 s2 r1 r2 : string) :
  output.count_newlines s1 = 0%nat -> output.count_newlines s2 = 0%nat ->
  String.append s1 (String.append output.newline r1)
  = String.append s2 (String.append output.newline r2) ->
  s1 = s2 /\ r1 = r2.
Proof.
  unfold output.newline.
  revert s2. induction s1 as [|a s1 IH]; intros [|b s2] H1 H2 H;
    cbn [String.append output.count_newlines] in *.
  - injection H as H. now split.
  - injection H as Hb _. subst b. rewrite Ascii.eqb_refl in H2.
    discriminate H2.
  - injection H as Ha _. subst a. rewrite Ascii.eqb_refl in H1.
    discriminate H1.
  - injection H as -> H.
    destruct (Ascii.eqb b _); [discriminate H1|].
    destruct (IH s2 H1 H2 H) as [-> ->]. now split.
Qed.

Lemma decimal_inj (v w : Z) :
  0 <= v -> 0 <= w ->
  NilEmpty.string_of_uint (N.to_uint (Z.to_N v))
  = NilEmpty.string_of_uint (N.to_uint (Z.to_N w)) ->
  v = w.
Proof.
  intros Hv Hw H. apply (f_equal NilEmpty.uint_of_string) in H.
  rewrite !NilEmpty.usu in H. injection H as H.
  apply DecimalN.Unsigned.to_uint_inj in H. now apply Z2N.inj.
Qed.

Lemma native_operator_out_text {P : CompressionPrimitive} (os : string)
      (x : function_signature.FunctionSignature NativeTypes) :
  output.native_operator_out os x
  = String.append os
      (String.append "vk_index: "
         (String.append
            (NilEmpty.string_of_uint
               (N.to_uint (Z.to_N (function_signature.vk_index x))))
            (String.append output.newline
               (String.append "is_private: "
                  (String.append
                     (if function_signature.is_private x then "1" else "0")
                     (String.append output.newline
                        (String.append "is_constructor: "
                           (String.append
                              (if function_signature.is_constructor x
                               then "1" else "0")
                              output.newline)))))))).
Proof.
  unfold output.native_operator_out, output.operator_out, output.out_literal.
  cbn [output.out output.uint32_t output.bool_t].
  now rewrite !append_assoc.
Qed.

(** X15. [operator<<] prints three lines, whatever the structure, and the
    text it prints tells the structures of the type apart: two structures
    printed alike are equal. *)
Theorem FunctionSignature_print_injective {P : CompressionPrimitive}
        (os : string)
        (a b : function_signature.FunctionSignature NativeTypes) :
  function_signature.valid a -> function_signature.valid b ->
  output.count_newlines (output.native_operator_out os a)
  = (output.count_newlines os + 3)%nat /\
  (output.native_operator_out os a = output.native_operator_out os b ->
   a = b).
Proof.
  intros (Ha & _) (Hb & _). unfold serialize.valid_uint32 in Ha, Hb. split.
  - rewrite native_operator_out_text.
    rewrite !count_newlines_append, digits_have_no_newline.
    destruct (function_signature.is_private a),
             (function_signature.is_constructor a); cbn; lia.
  - rewrite !native_operator_out_text. intros H.
    apply append_inv_head in H. apply append_inv_head in H.
    apply first_line_inj in H; try apply digits_have_no_newline.
    destruct H as [Hv Hrest]. apply decimal_inj in Hv; try lia.
    destruct a as [va pa ca], b as [vb pb cb].
    cbn [function_signature.vk_index function_signature.is_private
         function_signature.is_constructor] in *.
    subst vb.
    destruct pa, pb, ca, cb; try reflexivity; discriminate Hrest.
Qed.

Lemma FunctionSignature_print_injective_witness :
  function_signature.valid (native.fs (P := sample.primitive) 7 true false) /\
  output.native_operator_out (P := sample.primitive) "" (native.fs 7 true false)
  = String.append "vk_index: 7"
      (String.append output.newline
         (String.append "is_private: 1"
            (String.append output.newline
               (String.append "is_constructor: 0" output.newline)))) /\
  output.count_newlines
    (output.native_operator_out (P := sample.primitive) ""
                                (native.fs 7 true false))
  = (output.count_newlines "" + 3)%nat.
Proof.
  assert (Hx : function_signature.valid
                 (native.fs (P := sample.primitive) 7 true false))
    by solve_valid.
  split; [exact Hx|]. split; [reflexivity|].
  exact (proj1 (FunctionSignature_print_injective
                  (P := sample.primitive) ""
                  (native.fs 7 true false) (native.fs 7 true false) Hx Hx)).
Defined.

(** ** [rust_bind.hpp]: names and variants *)

(** X17. The exported names are pairwise distinct, as C linkage needs, and
    a plookup variant takes the same parameters and returns the same type
    as the baseline operation of the same name, so that a caller can switch
    variant without changing the call. *)
Theorem plookup_variants_match :
  NoDup (map rust_bind.name rust_bind.exports) /\
  (forall (suffix : string) (d d' : rust_bind.declaration),
      In d rust_bind.exports -> In d' rust_bind.exports ->
      rust_bind.name d = String.append "pedersen___" suffix ->
      rust_bind.name d' = String.append "pedersen___plookup_" suffix ->
      rust_bind.parameters d' = rust_bind.parameters d /\
      rust_bind.returns d' = rust_bind.returns d).
Proof.
  split.
  - cbn. repeat constructor; cbn; intuition discriminate.
  - intros suffix d d' Hd Hd' Hn Hn'.
    cbn [rust_bind.exports In] in Hd, Hd'.
    repeat (destruct Hd as [<-|Hd]; [|try contradiction]);
      cbn [rust_bind.name String.append] in Hn;
      repeat (destruct Hd' as [<-|Hd']; [|try contradiction]);
      cbn [rust_bind.name String.append rust_bind.parameters
           rust_bind.returns] in *;
      first [ split; reflexivity | exfalso; congruence ].
Qed.

(** [pedersen___compress] and [pedersen___plookup_compress]. *)
Lemma plookup_variants_match_witness :
  In {| rust_bind.name := "pedersen___compress";
        rust_bind.parameters := [(rust_bind.fr_vec_in_buf, "inputs_buffer");
                                 (rust_bind.fr_out_buf, "output")]%string;
        rust_bind.returns := rust_bind.pointer_to_const rust_bind.char |}
     rust_bind.exports /\
  In {| rust_bind.name := "pedersen___plookup_compress";
        rust_bind.parameters := [(rust_bind.fr_vec_in_buf, "inputs_buffer");
                                 (rust_bind.fr_out_buf, "output")]%string;
        rust_bind.returns := rust_bind.pointer_to_const rust_bind.char |}
     rust_bind.exports /\
  rust_bind.parameters
    {| rust_bind.name := "pedersen___plookup_compress";
       rust_bind.parameters := [(rust_bind.fr_vec_in_buf, "inputs_buffer");
                                (rust_bind.fr_out_buf, "output")]%string;
       rust_bind.returns := rust_bind.pointer_to_const rust_bind.char |}
  = rust_bind.parameters
      {| rust_bind.name := "pedersen___compress";
         rust_bind.parameters := [(rust_bind.fr_vec_in_buf, "inputs_buffer");
                                  (rust_bind.fr_out_buf, "output")]%string;
         rust_bind.returns := rust_bind.pointer_to_const rust_bind.char |}.
Proof.
  assert (H1 : In {| rust_bind.name := "pedersen___compress";
                     rust_bind.parameters :=
                       [(rust_bind.fr_vec_in_buf, "inputs_buffer");
                        (rust_bind.fr_out_buf, "output")]%string;
                     rust_bind.returns :=
                       rust_bind.pointer_to_const rust_bind.char |}
                  rust_bind.exports)
    by (do 3 right; left; reflexivity).
  assert (H2 : In {| rust_bind.name := "pedersen___plookup_compress";
                     rust_bind.parameters :=
                       [(rust_bind.fr_vec_in_buf, "inputs_buffer");
                        (rust_bind.fr_out_buf, "output")]%string;
                     rust_bind.returns :=
                       rust_bind.pointer_to_const rust_bind.char |}
                  rust_bind.exports)
    by (do 4 right; left; reflexivity).
  split; [exact H1|]. split; [exact H2|].
  exact (proj1 (proj2 plookup_variants_match "compress"%string _ _ H1 H2
                      eq_refl eq_refl)).
Defined.
